(** * OpenImagen: a shallow embedding of [src/core/imagen_generator.py]

    The embedding follows the Python module function by function.

    - A Python [str] is a [string]; one [ascii] stands for one character, so
      [String.length] is Python's [len]; the characters are the code points
      below 256.
    - A Python [bytes] is a [list byte].
    - The two remote endpoints and the wall clock are oracles collected in a
      [world]; what the program does to the outside (calls, sleeps, clock
      readings) is threaded through a [state].  Python exceptions are values
      of [exn]; a computation is a state-passing function that returns either
      a value or a raised exception.
    - String and byte literals are taken character for character as Python
      reads them.  Three of them are written with a doubled backslash in the
      source: the separator of line 238 (["\\n"], a backslash followed by
      [n]) and the two signature literals of line 292 ([b'\\xff\\xd8\\xff'],
      twelve bytes, and [b'\\x89PNG\\r\\n\\x1a\\n'], seventeen bytes).  Rocq
      strings have no backslash escapes, so the Rocq literal ["\n"] below is
      that same two-character string.
    - The scene prompt assembled at lines 132-147 is only ever handed to the
      remote text endpoint; the oracle for that endpoint is indexed by the
      keyword and the industry, the two values the prompt is built from.
      (In the source each quote of the two delimiters of that template is
      preceded by a backslash, which Python's grammar does not admit; the
      embedding takes the statement for the assignment of the template it
      spells out.)
    - Clock readings and the elapsed time are integers: nothing that is
      stated here depends on the arithmetic of floats. *)

From Stdlib Require Import List Strings.String Strings.Ascii Strings.Byte.
From Stdlib Require Import ZArith Lia Bool Arith.
Import ListNotations.

Local Open Scope string_scope.

(** ** Python strings *)

Module PyStr.

(** [c.lower()] for one character: the capital letters [A]-[Z], and the
    accented capitals at code points 192-222 (all but the sign at 215),
    move up by 32; every other character below 256 is its own lower
    case. *)
Definition lower_char (c : ascii) : ascii :=
  let n := nat_of_ascii c in
  if ((65 <=? n) && (n <=? 90))%nat then ascii_of_nat (n + 32)
  else if ((192 <=? n) && (n <=? 222) && negb (n =? 215))%nat
       then ascii_of_nat (n + 32)
       else c.

(** [s.lower()]. *)
Fixpoint lower (s : string) : string :=
  match s with
  | EmptyString => EmptyString
  | String c s' => String (lower_char c) (lower s')
  end.

(** [term in s]: [term] occurs in [s] as a contiguous substring. *)
Fixpoint contains (term s : string) : bool :=
  String.prefix term s ||
  match s with
  | EmptyString => false
  | String _ s' => contains term s'
  end.

(** [any(term in s for term in terms)]. *)
Definition any_term_in (terms : list string) (s : string) : bool :=
  existsb (fun term => contains term s) terms.

(** [sep.join(parts)]. *)
Fixpoint join (sep : string) (parts : list string) : string :=
  match parts with
  | [] => EmptyString
  | [p] => p
  | p :: rest => p ++ sep ++ join sep rest
  end.

(** [s[:n]]. *)
Definition take (n : nat) (s : string) : string := String.substring 0 n s.

(** Truthiness of a string: [bool(s)]. *)
Definition truthy (s : string) : bool :=
  match s with EmptyString => false | _ => true end.

(** Truthiness of an [Optional[str]]. *)
Definition opt_truthy (o : option string) : bool :=
  match o with Some s => truthy s | None => false end.

(** [s.lstrip(chars)] and [s.rstrip(chars)] for a character class [p]. *)
Fixpoint lstrip (p : ascii -> bool) (s : string) : string :=
  match s with
  | EmptyString => EmptyString
  | String c s' => if p c then lstrip p s' else s
  end.

Fixpoint rstrip (p : ascii -> bool) (s : string) : string :=
  match s with
  | EmptyString => EmptyString
  | String c s' =>
      match rstrip p s' with
      | EmptyString => if p c then EmptyString else String c EmptyString
      | r => String c r
      end
  end.

Definition strip (p : ascii -> bool) (s : string) : string :=
  rstrip p (lstrip p s).

(** The characters [str.strip()] removes when called without argument. *)
Definition is_space (c : ascii) : bool :=
  let n := nat_of_ascii c in
  (((9 <=? n) && (n <=? 13)) || ((28 <=? n) && (n <=? 32))
   || (n =? 133) || (n =? 160))%nat.

Definition is_char (d c : ascii) : bool := Ascii.eqb d c.

(** The double-quote character, code point 34. *)
Definition DOUBLE_QUOTE : ascii := ascii_of_nat 34.

(** [s.rsplit(d, 1)[0]]: what precedes the last [d], or all of [s] when
    [d] does not occur. *)
Fixpoint has_char (d : ascii) (s : string) : bool :=
  match s with
  | EmptyString => false
  | String c s' => Ascii.eqb d c || has_char d s'
  end.

Fixpoint before_last (d : ascii) (s : string) : string :=
  match s with
  | EmptyString => EmptyString
  | String c s' =>
      if has_char d s' then String c (before_last d s')
      else if Ascii.eqb d c then EmptyString
      else String c s'
  end.

End PyStr.

(** ** Data model ([src/models/data_models.py]) *)

Definition bytes := list byte.

Record CompanyData := {
  name : string;
  industry : string;
  language : string;
  custom_prompt_instructions : option string
}.

Record ImageRequest := {
  headline : string;
  keyword : string;
  company_data : CompanyData
}.

Record ImageResponse := {
  success : bool;
  image_url : string;
  image_data : option bytes;
  alt_text : string;
  generation_time_seconds : Z;
  error : option string;
  prompt_used : option string;
  scene_description : option string
}.

(** ** [_create_intelligent_fallback] (lines 173-197) *)

Definition TECH_TERMS : list string :=
  ["ai"; "artificial intelligence"; "machine learning"; "automation";
   "algorithm"; "data"; "software"; "tech"; "digital"].

Definition MANAGEMENT_TERMS : list string :=
  ["management"; "strategy"; "leadership"; "business"; "operations";
   "planning"; "growth"].

Definition SAFETY_TERMS : list string :=
  ["safety"; "security"; "compliance"; "risk"; "audit"; "quality"].

Definition CUSTOMER_TERMS : list string :=
  ["customer"; "service"; "support"; "client"; "user"; "experience"].

Definition FINANCE_TERMS : list string :=
  ["financial"; "finance"; "budget"; "cost"; "roi"; "investment";
   "accounting"].

(** A template is the text before and the text after the keyword. *)
Definition template := (string * string)%type.

Definition fill (t : template) (kw : string) : string :=
  fst t ++ kw ++ snd t.

Definition TECH_TEMPLATE : template :=
  ("Professional team collaborating on ",
   " in modern office environment. Multiple screens with data visualizations, authentic working session with natural lighting and lived-in details.").

Definition MANAGEMENT_TEMPLATE : template :=
  ("Business professionals engaged in strategic discussion about ",
   ". Conference room setting with whiteboards, documents, and authentic decision-making atmosphere.").

Definition SAFETY_TEMPLATE : template :=
  ("Professional reviewing ",
   " protocols in workplace setting. Documentation, monitoring equipment, and safety-focused environment with natural workflow.").

Definition CUSTOMER_TEMPLATE : template :=
  ("Service professional engaged in ",
   " activities. Customer-facing environment with modern tools, authentic service delivery moment.").

Definition FINANCE_TEMPLATE : template :=
  ("Finance professional analyzing ",
   " data at workstation. Multiple monitors with charts and reports, traditional yet modern office environment.").

Definition GENERIC_TEMPLATE : template :=
  ("Professional team working on ",
   " project in contemporary workplace. Collaborative environment with modern tools, authentic work session with natural lighting and personal touches.").

Definition _create_intelligent_fallback (keyword industry : string) : string :=
  let keyword_lower := PyStr.lower keyword in
  if PyStr.any_term_in TECH_TERMS keyword_lower then
    fill TECH_TEMPLATE keyword
  else if PyStr.any_term_in MANAGEMENT_TERMS keyword_lower then
    fill MANAGEMENT_TEMPLATE keyword
  else if PyStr.any_term_in SAFETY_TERMS keyword_lower then
    fill SAFETY_TEMPLATE keyword
  else if PyStr.any_term_in CUSTOMER_TERMS keyword_lower then
    fill CUSTOMER_TEMPLATE keyword
  else if PyStr.any_term_in FINANCE_TERMS keyword_lower then
    fill FINANCE_TEMPLATE keyword
  else
    fill GENERIC_TEMPLATE keyword.

(** The classifier as the specification words it: an ordered list of
    (term set, template) pairs, searched from the front; the first pair one
    of whose terms occurs in the lower-cased keyword decides. *)
Definition family := (list string * template)%type.

Definition FAMILIES : list family :=
  [ (TECH_TERMS, TECH_TEMPLATE);
    (MANAGEMENT_TERMS, MANAGEMENT_TEMPLATE);
    (SAFETY_TERMS, SAFETY_TEMPLATE);
    (CUSTOMER_TERMS, CUSTOMER_TEMPLATE);
    (FINANCE_TERMS, FINANCE_TEMPLATE) ].

Definition family_matches (kw : string) (f : family) : bool :=
  PyStr.any_term_in (fst f) (PyStr.lower kw).

Definition first_match_classifier (kw : string) : string :=
  match find (family_matches kw) FAMILIES with
  | Some f => fill (snd f) kw
  | None => fill GENERIC_TEMPLATE kw
  end.

(** ** [_generate_alt_text] (lines 301-309) *)

Definition ALT_PREFIX : string := "Professional editorial image: ".

Definition _generate_alt_text (request : ImageRequest) : string :=
  let alt_text := ALT_PREFIX ++ headline request in
  if (125 <? String.length alt_text)%nat
  then PyStr.take 122 alt_text ++ "..."
  else alt_text.

(** ** [_build_professional_prompt] (lines 199-238) *)

(** The separator of line 238. *)
Definition PROMPT_SEPARATOR : string := "\n".

Definition framing_line (request : ImageRequest) : string :=
  "Professional editorial photograph for a business article about '"
    ++ keyword request ++ "'.".

Definition scene_line (scene_description : string) : string :=
  "Scene: " ++ scene_description.

Definition PHOTOGRAPHY_STYLE : list string :=
  [ "Photography style:";
    "- Professional editorial quality (Canon 5D Mark IV, 35mm f/2.8)";
    "- Natural lighting with soft shadows, not harsh or uniform";
    "- Rule of thirds composition, authentic documentary style";
    "- Shallow depth of field with natural background blur";
    "- Modern color grading with professional warmth";
    "- Subtle film grain for authenticity" ].

Definition EDITORIAL_REQUIREMENTS : list string :=
  [ "Editorial requirements:";
    "- Candid, authentic moment - not posed or stock-photo-like";
    "- Real workplace environment with natural details";
    "- Professional but approachable atmosphere";
    "- No text, logos, or branding visible in image";
    "- Diverse and inclusive representation when people are shown" ].

Definition TECHNICAL_SPECS : list string :=
  [ "Technical specs: 16:9 landscape, high resolution, editorial quality";
    "Style reference: Bloomberg Businessweek, Harvard Business Review" ].

Definition additional_line (instructions : string) : string :=
  "Additional requirements: " ++ instructions.

(** [prompt_parts] as it stands when line 238 is reached. *)
Definition prompt_parts (request : ImageRequest) (scene_description : string)
  : list string :=
  let fixed :=
    ([ framing_line request; EmptyString;
       scene_line scene_description; EmptyString ]
     ++ PHOTOGRAPHY_STYLE ++ [ EmptyString ]
     ++ EDITORIAL_REQUIREMENTS ++ [ EmptyString ]
     ++ TECHNICAL_SPECS)%list in
  match custom_prompt_instructions (company_data request) with
  | Some instructions =>
      if PyStr.truthy instructions
      then (fixed ++ [ EmptyString; additional_line instructions ])%list
      else fixed
  | None => fixed
  end.

Definition _build_professional_prompt
  (request : ImageRequest) (scene_description : string) : string :=
  PyStr.join PROMPT_SEPARATOR (prompt_parts request scene_description).

(** ** Base64 ([base64.b64encode], [base64.b64decode], RFC 4648) *)

Module Base64.

(** Six bits, most significant first. *)
Definition sextet := (bool * bool * bool * bool * bool * bool)%type.

Definition bit (b : bool) : nat := if b then 1 else 0.

Definition index_of_sextet (s : sextet) : nat :=
  let '(b5, b4, b3, b2, b1, b0) := s in
  32 * bit b5 + 16 * bit b4 + 8 * bit b3 + 4 * bit b2 + 2 * bit b1 + bit b0.

Definition sextet_of_index (n : nat) : sextet :=
  (Nat.testbit n 5, Nat.testbit n 4, Nat.testbit n 3,
   Nat.testbit n 2, Nat.testbit n 1, Nat.testbit n 0).

Definition ALPHABET : string :=
  "ABCDEFGHIJKLMNOPQRSTUVWXYZabcdefghijklmnopqrstuvwxyz0123456789+/".

Definition PAD : ascii := "="%char.

Definition char_of_sextet (s : sextet) : ascii :=
  match String.get (index_of_sextet s) ALPHABET with
  | Some c => c
  | None => PAD
  end.

Definition sextet_of_char (c : ascii) : option sextet :=
  let n := nat_of_ascii c in
  if ((65 <=? n) && (n <=? 90))%nat then Some (sextet_of_index (n - 65))
  else if ((97 <=? n) && (n <=? 122))%nat then Some (sextet_of_index (n - 71))
  else if ((48 <=? n) && (n <=? 57))%nat then Some (sextet_of_index (n + 4))
  else if (n =? 43)%nat then Some (sextet_of_index 62)
  else if (n =? 47)%nat then Some (sextet_of_index 63)
  else None.

(** The bits of a byte, most significant first. *)
Definition bits_of (x : byte) :=
  let '(b0, (b1, (b2, (b3, (b4, (b5, (b6, b7))))))) := Byte.to_bits x in
  (b7, b6, b5, b4, b3, b2, b1, b0).

Definition byte_of (b7 b6 b5 b4 b3 b2 b1 b0 : bool) : byte :=
  Byte.of_bits (b0, (b1, (b2, (b3, (b4, (b5, (b6, b7))))))).

(** Three bytes make four sextets; one or two trailing bytes are padded
    with zero bits. *)
Definition sextets3 (x y z : byte) : sextet * sextet * sextet * sextet :=
  let '(x7, x6, x5, x4, x3, x2, x1, x0) := bits_of x in
  let '(y7, y6, y5, y4, y3, y2, y1, y0) := bits_of y in
  let '(z7, z6, z5, z4, z3, z2, z1, z0) := bits_of z in
  ((x7, x6, x5, x4, x3, x2), (x1, x0, y7, y6, y5, y4),
   (y3, y2, y1, y0, z7, z6), (z5, z4, z3, z2, z1, z0)).

Definition sextets2 (x y : byte) : sextet * sextet * sextet :=
  let '(x7, x6, x5, x4, x3, x2, x1, x0) := bits_of x in
  let '(y7, y6, y5, y4, y3, y2, y1, y0) := bits_of y in
  ((x7, x6, x5, x4, x3, x2), (x1, x0, y7, y6, y5, y4),
   (y3, y2, y1, y0, false, false)).

Definition sextets1 (x : byte) : sextet * sextet :=
  let '(x7, x6, x5, x4, x3, x2, x1, x0) := bits_of x in
  ((x7, x6, x5, x4, x3, x2), (x1, x0, false, false, false, false)).

Fixpoint b64encode (d : bytes) : string :=
  match d with
  | [] => EmptyString
  | [x] =>
      let '(s1, s2) := sextets1 x in
      String (char_of_sextet s1) (String (char_of_sextet s2)
        (String PAD (String PAD EmptyString)))
  | [x; y] =>
      let '(s1, s2, s3) := sextets2 x y in
      String (char_of_sextet s1) (String (char_of_sextet s2)
        (String (char_of_sextet s3) (String PAD EmptyString)))
  | x :: y :: z :: rest =>
      let '(s1, s2, s3, s4) := sextets3 x y z in
      String (char_of_sextet s1) (String (char_of_sextet s2)
        (String (char_of_sextet s3) (String (char_of_sextet s4)
          (b64encode rest))))
  end.

Definition bytes3 (s1 s2 s3 s4 : sextet) : bytes :=
  let '(a5, a4, a3, a2, a1, a0) := s1 in
  let '(b5, b4, b3, b2, b1, b0) := s2 in
  let '(c5, c4, c3, c2, c1, c0) := s3 in
  let '(d5, d4, d3, d2, d1, d0) := s4 in
  [ byte_of a5 a4 a3 a2 a1 a0 b5 b4;
    byte_of b3 b2 b1 b0 c5 c4 c3 c2;
    byte_of c1 c0 d5 d4 d3 d2 d1 d0 ].

(** Decoding of padded text, four characters at a time; padding is only
    accepted in the last group. *)
Fixpoint b64decode (s : string) : option bytes :=
  match s with
  | EmptyString => Some []
  | String c1 (String c2 (String c3 (String c4 rest))) =>
      match sextet_of_char c1, sextet_of_char c2 with
      | Some s1, Some s2 =>
          if Ascii.eqb c4 PAD then
            match rest with
            | EmptyString =>
                if Ascii.eqb c3 PAD then
                  Some (firstn 1 (bytes3 s1 s2 (sextet_of_index 0) (sextet_of_index 0)))
                else
                  match sextet_of_char c3 with
                  | Some s3 => Some (firstn 2 (bytes3 s1 s2 s3 (sextet_of_index 0)))
                  | None => None
                  end
            | _ => None
            end
          else
            match sextet_of_char c3, sextet_of_char c4, b64decode rest with
            | Some s3, Some s4, Some tail => Some (bytes3 s1 s2 s3 s4 ++ tail)%list
            | _, _, _ => None
            end
      | _, _ => None
      end
  | _ => None
  end.

End Base64.

(** The text of a data URI that follows its first comma. *)
Fixpoint after_first_comma (s : string) : string :=
  match s with
  | EmptyString => EmptyString
  | String c s' => if Ascii.eqb c ","%char then s' else after_first_comma s'
  end.

(** ** Exceptions and effects *)

(** The exception classes the program can meet.  The last two derive from
    [BaseException] only, so an [except Exception] clause lets them pass. *)
Inductive exn_class :=
| Exception | ValueError | ImportError | TypeError
| KeyboardInterrupt | SystemExit.

(** A raised exception: its class and [str(e)]. *)
Record exn := { exn_class_of : exn_class; exn_str : string }.

(** [isinstance(e, Exception)]. *)
Definition is_Exception (e : exn) : bool :=
  match exn_class_of e with
  | KeyboardInterrupt | SystemExit => false
  | _ => true
  end.

Inductive result (A : Type) :=
| Ok (a : A)
| Raise (e : exn).
Arguments Ok {A} a.
Arguments Raise {A} e.

(** *** What the remote endpoints answer *)

(** The answer of the text endpoint: an object with a [text] attribute. *)
Record text_response := { text : option string }.

(** An attribute that the code iterates over holds a list, or something a
    [for] loop cannot walk ([None], say). *)
Inductive iterable (A : Type) :=
| NotIterable
| Items (l : list A).
Arguments NotIterable {A}.
Arguments Items {A} l.

(** The value of [inline_data.data]: [bytes], or anything else. *)
Inductive py_value :=
| PyBytes (b : bytes)
| PyOther.

(** In the records below [None] stands for an attribute that [hasattr] does
    not find; for [content] and [inline_data] it also stands for the
    attribute holding [None], which the next [hasattr] rejects alike. *)
Record inline_data_t := { data : option py_value }.
Record part := { inline_data : option inline_data_t }.
Record content_t := { parts : option (iterable part) }.
Record candidate := { content : option content_t }.
Record response := { candidates : option (iterable candidate) }.

(** *** The world and the state *)

Record world := {
  (** the text endpoint, asked about a keyword and an industry *)
  text_endpoint : string -> string -> result (option text_response);
  (** the image endpoint, asked with a prompt for the [k]-th time, [k] from 0 *)
  image_endpoint : string -> nat -> result (option response);
  (** the [k]-th reading of [time.time()], [k] from 0 *)
  time_time : nat -> Z;
  (** [genai.Client(api_key=...)], with the import before it *)
  genai_client : string -> result unit;
  (** [os.getenv] *)
  getenv : string -> option string
}.

Record state := {
  text_calls : nat;
  image_calls : nat;
  sleeps : list Z;       (* oldest first *)
  clock_reads : nat;
  client_inits : nat
}.

Definition initial_state : state :=
  {| text_calls := 0; image_calls := 0; sleeps := []; clock_reads := 0;
     client_inits := 0 |}.

Definition M (A : Type) : Type := state -> result A * state.

Definition ret {A} (a : A) : M A := fun st => (Ok a, st).

Definition raise {A} (e : exn) : M A := fun st => (Raise e, st).

Definition bind {A B} (m : M A) (k : A -> M B) : M B :=
  fun st =>
    match m st with
    | (Ok a, st') => k a st'
    | (Raise e, st') => (Raise e, st')
    end.

Declare Scope py_scope.
Delimit Scope py_scope with py.
Notation "x <- m ;; k" := (bind m (fun x => k))
  (at level 61, m at next level, right associativity) : py_scope.
Notation "m ;;; k" := (bind m (fun _ => k))
  (at level 61, right associativity) : py_scope.

(** [try: body / except Exception as e: handler e]. *)
Definition try_except {A} (body : M A) (handler : exn -> M A) : M A :=
  fun st =>
    match body st with
    | (Raise e, st') =>
        if is_Exception e then handler e st' else (Raise e, st')
    | r => r
    end.

Section Effects.
Variable w : world.

Definition call_text_endpoint (keyword industry : string)
  : M (option text_response) :=
  fun st =>
    (text_endpoint w keyword industry,
     {| text_calls := S (text_calls st); image_calls := image_calls st;
        sleeps := sleeps st; clock_reads := clock_reads st;
        client_inits := client_inits st |}).

Definition call_image_endpoint (prompt : string) : M (option response) :=
  fun st =>
    (image_endpoint w prompt (image_calls st),
     {| text_calls := text_calls st; image_calls := S (image_calls st);
        sleeps := sleeps st; clock_reads := clock_reads st;
        client_inits := client_inits st |}).

Definition read_clock : M Z :=
  fun st =>
    (Ok (time_time w (clock_reads st)),
     {| text_calls := text_calls st; image_calls := image_calls st;
        sleeps := sleeps st; clock_reads := S (clock_reads st);
        client_inits := client_inits st |}).

Definition make_client (api_key : string) : M unit :=
  fun st =>
    (genai_client w api_key,
     {| text_calls := text_calls st; image_calls := image_calls st;
        sleeps := sleeps st; clock_reads := clock_reads st;
        client_inits := S (client_inits st) |}).
End Effects.

(** [time.sleep(seconds)]. *)
Definition sleep (seconds : Z) : M unit :=
  fun st =>
    (Ok tt,
     {| text_calls := text_calls st; image_calls := image_calls st;
        sleeps := sleeps st ++ [seconds]; clock_reads := clock_reads st;
        client_inits := client_inits st |}).

(** ** [_extract_image_from_response] (lines 274-299) *)

Fixpoint bytes_eqb (a b : bytes) : bool :=
  match a, b with
  | [], [] => true
  | x :: a', y :: b' => Byte.eqb x y && bytes_eqb a' b'
  | _, _ => false
  end.

(** How the walk over the candidates can end. *)
Inductive scan :=
| Found (d : bytes)      (* [return image_data], line 293 *)
| NothingFound           (* the loop ran to its end *)
| RaisedTypeError.       (* a [for] over something that is no list *)

Section Requester.

(** The two byte strings that line 292 compares the payload's first three
    and first eight bytes with.  The loop and the facade are written over
    them; the literals of the source are [LINE_292_JPEG] and
    [LINE_292_PNG] below. *)
Variables JPEG_LITERAL PNG_LITERAL : bytes.

Variable w : world.

(** Lines 290-292: [len(image_data) > 100] and one of the two prefix
    comparisons. *)
Definition payload_accepted (image_data : bytes) : bool :=
  (100 <? List.length image_data)%nat
  && (bytes_eqb (firstn 3 image_data) JPEG_LITERAL
      || bytes_eqb (firstn 8 image_data) PNG_LITERAL).

(** Lines 285-293 for one part. *)
Definition part_image (p : part) : option bytes :=
  match inline_data p with
  | Some holder =>
      match data holder with
      | Some (PyBytes image_data) =>
          if payload_accepted image_data then Some image_data else None
      | _ => None
      end
  | None => None
  end.

Fixpoint scan_parts (ps : list part) : option bytes :=
  match ps with
  | [] => None
  | p :: rest =>
      match part_image p with
      | Some d => Some d
      | None => scan_parts rest
      end
  end.

Definition scan_candidate (c : candidate) : scan :=
  match content c with
  | None => NothingFound
  | Some ct =>
      match parts ct with
      | None => NothingFound
      | Some NotIterable => RaisedTypeError
      | Some (Items ps) =>
          match scan_parts ps with
          | Some d => Found d
          | None => NothingFound
          end
      end
  end.

Fixpoint scan_candidates (cs : list candidate) : scan :=
  match cs with
  | [] => NothingFound
  | c :: rest =>
      match scan_candidate c with
      | NothingFound => scan_candidates rest
      | r => r
      end
  end.

Definition _extract_image_from_response (resp : option response)
  : option bytes :=
  match resp with
  | None => None
  | Some r =>
      match candidates r with
      | None => None
      | Some NotIterable => None
      | Some (Items cs) =>
          match scan_candidates cs with
          | Found d => Some d
          | NothingFound => None
          | RaisedTypeError => None
          end
      end
  end.

(** ** [_generate_with_retry] (lines 240-272) *)

(** Truthiness of an [Optional[bytes]]. *)
Definition bytes_truthy (o : option bytes) : bool :=
  match o with
  | Some (_ :: _) => true
  | _ => false
  end.

(** One turn of the loop, for the value [attempt] of the loop variable.
    [Some image_bytes] is the [return] of line 260; [None] lets the loop
    go on. *)
Definition attempt_body (prompt : string) (max_retries attempt : Z)
  : M (option bytes) :=
  try_except
    (response <- call_image_endpoint w prompt ;;
     let image_bytes := _extract_image_from_response response in
     if bytes_truthy image_bytes then ret image_bytes
     else sleep (5 * (attempt + 1)) ;;; ret None)%py
    (fun e =>
       if (attempt <? max_retries - 1)%Z
       then (sleep (5 * (attempt + 1)) ;;; ret None)%py
       else raise e).

Fixpoint retry_loop (prompt : string) (max_retries : Z) (attempts : list Z)
  : M (option bytes) :=
  match attempts with
  | [] => ret None
  | attempt :: rest =>
      (r <- attempt_body prompt max_retries attempt ;;
       match r with
       | Some image_bytes => ret (Some image_bytes)
       | None => retry_loop prompt max_retries rest
       end)%py
  end.

(** [range(n)]. *)
Definition range (n : Z) : list Z :=
  map Z.of_nat (seq 0 (Z.to_nat n)).

Definition _generate_with_retry (prompt : string) (max_retries : Z)
  : M (option bytes) :=
  retry_loop prompt max_retries (range max_retries).

(** ** [_generate_intelligent_scene] (lines 125-171) *)

Definition normalise_scene (response_text : string) : string :=
  let scene_desc :=
    PyStr.strip (PyStr.is_char "'"%char)
      (PyStr.strip (PyStr.is_char PyStr.DOUBLE_QUOTE)
         (PyStr.strip PyStr.is_space response_text)) in
  if (200 <? String.length scene_desc)%nat
  then PyStr.before_last "."%char (PyStr.take 200 scene_desc) ++ "."
  else scene_desc.

Definition _generate_intelligent_scene (keyword industry : string)
  : M string :=
  (answered <-
     try_except
       (response <- call_text_endpoint w keyword industry ;;
        match response with
        | Some r =>
            match text r with
            | Some t =>
                if PyStr.truthy t then ret (Some (normalise_scene t))
                else ret None
            | None => ret None
            end
        | None => ret None
        end)
       (fun _ => ret None) ;;
   match answered with
   | Some scene_desc => ret scene_desc
   | None => ret (_create_intelligent_fallback keyword industry)
   end)%py.

(** ** [generate_image] (lines 70-123) *)

Definition DATA_URI_PREFIX : string := "data:image/jpeg;base64,".

Definition NO_IMAGE_ERROR : string := "Failed to generate image after retries".

Definition failure_response (message : string) (seconds : Z)
  : ImageResponse :=
  {| success := false; image_url := EmptyString; image_data := None;
     alt_text := EmptyString; generation_time_seconds := seconds;
     error := Some message; prompt_used := None;
     scene_description := None |}.

(** The body of the [try] of lines 82-115; [start_time] was read before. *)
Definition generation_pipeline (request : ImageRequest) (start_time : Z)
  : M ImageResponse :=
  (scene <- _generate_intelligent_scene
              (keyword request) (industry (company_data request)) ;;
   let prompt := _build_professional_prompt request scene in
   image_data <- _generate_with_retry prompt 3 ;;
   if bytes_truthy image_data then
     now <- read_clock w ;;
     ret {| success := true;
            image_data := image_data;
            image_url :=
              DATA_URI_PREFIX
                ++ Base64.b64encode (match image_data with
                                     | Some d => d
                                     | None => []
                                     end);
            alt_text := _generate_alt_text request;
            generation_time_seconds := now - start_time;
            error := None;
            prompt_used := Some prompt;
            scene_description := Some scene |}
   else
     now <- read_clock w ;;
     ret (failure_response NO_IMAGE_ERROR (now - start_time)))%py.

Definition generate_image (request : ImageRequest) : M ImageResponse :=
  (start_time <- read_clock w ;;
   try_except
     (generation_pipeline request start_time)
     (fun e =>
        now <- read_clock w ;;
        ret (failure_response (exn_str e) (now - start_time))))%py.

End Requester.

(** The literals of line 292, byte for byte.  [b'\\xff\\xd8\\xff'] is the
    twelve characters backslash, [x], [f], [f], backslash, [x], [d], [8],
    backslash, [x], [f], [f]; [b'\\x89PNG\\r\\n\\x1a\\n'] is the seventeen
    characters backslash, [x], [8], [9], [P], [N], [G], backslash, [r],
    backslash, [n], backslash, [x], [1], [a], backslash, [n]. *)
Definition LINE_292_JPEG : bytes :=
  [ x5c; x78; x66; x66; x5c; x78; x64; x38; x5c; x78; x66; x66 ].

Definition LINE_292_PNG : bytes :=
  [ x5c; x78; x38; x39; x50; x4e; x47; x5c; x72; x5c; x6e;
    x5c; x78; x31; x61; x5c; x6e ].

(** The file signatures of the two formats (JPEG: [FF D8 FF]; PNG:
    [89 50 4E 47 0D 0A 1A 0A]). *)
Definition JPEG_MAGIC : bytes := [xff; xd8; xff].
Definition PNG_MAGIC : bytes := [x89; x50; x4e; x47; x0d; x0a; x1a; x0a].

(** The class as it is written. *)
Module OpenImagen.

Definition _extract_image_from_response :=
  _extract_image_from_response LINE_292_JPEG LINE_292_PNG.

Definition _generate_with_retry :=
  _generate_with_retry LINE_292_JPEG LINE_292_PNG.

Definition generate_image :=
  generate_image LINE_292_JPEG LINE_292_PNG.

(** ** [_get_api_key] and [__init__] (lines 38-68) *)

(** [a or b] on [Optional[str]]. *)
Definition py_or (a b : option string) : option string :=
  if PyStr.opt_truthy a then a else b.

Definition _get_api_key (w : world) : option string :=
  py_or (getenv w "GOOGLE_API_KEY")
    (py_or (getenv w "GEMINI_API_KEY") (getenv w "GOOGLE_GEMINI_API_KEY")).

Definition KEY_REQUIRED : exn :=
  {| exn_class_of := ValueError;
     exn_str := "Google API key required. Set GOOGLE_API_KEY environment variable or pass api_key parameter." |}.

Definition PACKAGE_REQUIRED : exn :=
  {| exn_class_of := ImportError;
     exn_str := "google-genai package required. Install with: pip install google-genai" |}.

(** The constructor; its value is [self.api_key]. *)
Definition __init__ (w : world) (api_key : option string) : M string :=
  match py_or api_key (_get_api_key w) with
  | Some (String c k) =>
      fun st =>
        match make_client w (String c k) st with
        | (Ok _, st') => (Ok (String c k), st')
        | (Raise e, st') =>
            match exn_class_of e with
            | ImportError => (Raise PACKAGE_REQUIRED, st')
            | _ => (Raise e, st')
            end
        end
  | _ => raise KEY_REQUIRED
  end.

End OpenImagen.

(** ** Sample data for the examples *)

Definition request_for (h kw : string) (instructions : option string)
  : ImageRequest :=
  {| headline := h; keyword := kw;
     company_data := {| name := "EdgeTech Solutions";
                        industry := "Computing Infrastructure";
                        language := "en";
                        custom_prompt_instructions := instructions |} |}.

Definition edge_request : ImageRequest :=
  request_for "Edge Computing Revolution"
    "edge computing IoT distributed systems" None.

(** A response whose only candidate has one part with inline data [d]. *)
Definition response_with (d : bytes) : option response :=
  Some {| candidates :=
            Some (Items
              [ {| content :=
                     Some {| parts :=
                               Some (Items
                                 [ {| inline_data :=
                                        Some {| data := Some (PyBytes d) |} |} ])
                          |} |} ]) |}.

(** 101 bytes that start with the JPEG signature, and 101 that start with
    the PNG signature. *)
Definition jpeg_payload : bytes := (JPEG_MAGIC ++ repeat x00 98)%list.
Definition png_payload : bytes := (PNG_MAGIC ++ repeat x00 93)%list.

Definition an_error (msg : string) : exn :=
  {| exn_class_of := Exception; exn_str := msg |}.

Definition an_interrupt : exn :=
  {| exn_class_of := KeyboardInterrupt; exn_str := EmptyString |}.

(** A world built from the answers of the two endpoints; the clock reads
    [10 * k] at its [k]-th reading, the client is always built and no
    environment variable is set. *)
Definition world_of
  (text_answer : result (option text_response))
  (image_answer : nat -> result (option response)) : world :=
  {| text_endpoint := fun _ _ => text_answer;
     image_endpoint := fun _ k => image_answer k;
     time_time := fun k => (10 * Z.of_nat k)%Z;
     genai_client := fun _ => Ok tt;
     getenv := fun _ => None |}.

(** The transport stub of the retry scenario: two failures, then an answer
    carrying [d]. *)
Definition fails_twice_then (d : bytes) (k : nat) : result (option response) :=
  match k with
  | 0 | 1 => Raise (an_error "503 Service Unavailable")
  | _ => Ok (response_with d)
  end.

(** The fixed sections of the prompt, in the order of lines 205-228. *)
Definition fixed_block (request : ImageRequest) (scene_description : string)
  : string :=
  framing_line request ++ PROMPT_SEPARATOR ++ PROMPT_SEPARATOR
    ++ scene_line scene_description ++ PROMPT_SEPARATOR ++ PROMPT_SEPARATOR
    ++ PyStr.join PROMPT_SEPARATOR PHOTOGRAPHY_STYLE
    ++ PROMPT_SEPARATOR ++ PROMPT_SEPARATOR
    ++ PyStr.join PROMPT_SEPARATOR EDITORIAL_REQUIREMENTS
    ++ PROMPT_SEPARATOR ++ PROMPT_SEPARATOR
    ++ PyStr.join PROMPT_SEPARATOR TECHNICAL_SPECS.

Definition additional_section (instructions : string) : string :=
  PROMPT_SEPARATOR ++ PROMPT_SEPARATOR ++ additional_line instructions.

(** An environment given by the values of the three recognised variables. *)
Definition env_world (g1 g2 g3 : option string) : world :=
  {| text_endpoint := fun _ _ => Ok None;
     image_endpoint := fun _ _ => Ok None;
     time_time := fun _ => 0%Z;
     genai_client := fun _ => Ok tt;
     getenv := fun v =>
       if String.eqb v "GOOGLE_API_KEY" then g1
       else if String.eqb v "GEMINI_API_KEY" then g2
       else if String.eqb v "GOOGLE_GEMINI_API_KEY" then g3
       else None |}.

(** An attempt of the retry loop fails, in the sense that the loop goes on
    after it, when the endpoint raises an [Exception] or answers with
    nothing the extraction accepts. *)
Definition attempt_fails (J P : bytes) (answer : result (option response))
  : Prop :=
  match answer with
  | Raise e => is_Exception e = true
  | Ok resp => bytes_truthy (_extract_image_from_response J P resp) = false
  end.

(** The lookup of the key as the documentation words it: the first of the
    candidates that is a non-empty string. *)
Definition first_non_empty (candidates : list (option string))
  : option string :=
  match find PyStr.opt_truthy candidates with
  | Some o => o
  | None => None
  end.

Definition API_KEY_VARIABLES : list string :=
  [ "GOOGLE_API_KEY"; "GEMINI_API_KEY"; "GOOGLE_GEMINI_API_KEY" ].

(** Worlds of the examples: the text endpoint is unavailable and the image
    endpoint always gives the same answer. *)
Definition png_world : world :=
  world_of (Raise (an_error "text endpoint unavailable"))
           (fun _ => Ok (response_with png_payload)).

Definition failing_world (e : exn) : world :=
  world_of (Ok None) (fun _ => Raise e).

Definition silent_world : world :=
  world_of (Raise (an_error "text endpoint unavailable")) (fun _ => Ok None).

Definition retry_world (d : bytes) : world :=
  world_of (Ok None) (fails_twice_then d).

(** The state after [k] more calls of the image endpoint and the given
    further sleeps. *)
Definition after_attempts (st : state) (k : nat) (slept : list Z) : state :=
  {| text_calls := text_calls st; image_calls := k + image_calls st;
     sleeps := (sleeps st ++ slept)%list; clock_reads := clock_reads st;
     client_inits := client_inits st |}.

(** ** [generate_professional_image] (lines 313-362) *)

(** The generator is constructed first, outside any [try]; the request is
    then built, with the default language of [CompanyData], and handed to
    [generate_image]. *)
Definition generate_professional_image (w : world)
  (the_headline the_keyword company_name the_industry : string)
  (api_key custom_instructions : option string) : M ImageResponse :=
  (generator <- OpenImagen.__init__ w api_key ;;
   let the_company_data :=
     {| name := company_name; industry := the_industry; language := "en";
        custom_prompt_instructions := custom_instructions |} in
   let request :=
     {| headline := the_headline; keyword := the_keyword;
        company_data := the_company_data |} in
   OpenImagen.generate_image w request)%py.

(** ** The key check of [main] ([examples/basic_usage.py], line 166) *)

(** [any(os.getenv(key) for key in [...])]; [main] returns at once when it
    is false. *)
Definition main_finds_api_key (w : world) : bool :=
  existsb (fun key => PyStr.opt_truthy (getenv w key))
    [ "GOOGLE_API_KEY"; "GEMINI_API_KEY"; "GOOGLE_GEMINI_API_KEY" ].

(** ** Further sample data *)

(** The sleeps of [k] attempts that were each followed by a sleep:
    5, 10, ..., 5k. *)
Definition backoff (k : nat) : list Z :=
  map (fun i => (5 * (Z.of_nat i + 1))%Z) (seq 0 k).

Definition candidate_with (d : bytes) : candidate :=
  {| content :=
       Some {| parts :=
                 Some (Items [ {| inline_data :=
                                    Some {| data := Some (PyBytes d) |} |} ])
            |} |}.

(** A candidate whose [parts] attribute holds [None]. *)
Definition candidate_without_parts : candidate :=
  {| content := Some {| parts := Some NotIterable |} |}.

Definition response_of (cs : list candidate) : option response :=
  Some {| candidates := Some (Items cs) |}.

(** A world whose text endpoint answers with the given text. *)
Definition answering_world (t : string) : world :=
  world_of (Ok (Some {| text := Some t |})) (fun _ => Ok None).

(** A stub that fails [k] times, with an exception and an empty answer in
    turn, and then answers with [d]. *)
Definition fails_then (k : nat) (d : bytes) (i : nat)
  : result (option response) :=
  if (i <? k)%nat
  then (if Nat.even i then Raise (an_error "503 Service Unavailable")
        else Ok None)
  else Ok (response_with d).

(** A stub that fails [k] times in the same way and is then interrupted. *)
Definition fails_then_raises (k : nat) (e : exn) (i : nat)
  : result (option response) :=
  if (i <? k)%nat
  then (if Nat.even i then Raise (an_error "503 Service Unavailable")
        else Ok None)
  else Raise e.

Definition part_with (d : bytes) : part :=
  {| inline_data := Some {| data := Some (PyBytes d) |} |}.

Definition part_without_data : part := {| inline_data := None |}.

Definition candidate_of (ps : list part) : candidate :=
  {| content := Some {| parts := Some (Items ps) |} |}.

(** [all(p(c) for c in s)]. *)
Fixpoint all_chars (p : ascii -> bool) (s : string) : bool :=
  match s with
  | EmptyString => true
  | String c s' => p c && all_chars p s'
  end.

(** The six sentences of the fallback, in the order of the source. *)
Definition ALL_TEMPLATES : list template :=
  [ TECH_TEMPLATE; MANAGEMENT_TEMPLATE; SAFETY_TEMPLATE; CUSTOMER_TEMPLATE;
    FINANCE_TEMPLATE; GENERIC_TEMPLATE ].

(** * Properties *)

(** ** Strings *)

Lemma length_append (a b : string) :
  String.length (a ++ b) = String.length a + String.length b.
Proof.
  induction a as [| c a IH]; simpl; [reflexivity | now rewrite IH].
Qed.

Lemma append_assoc (a b c : string) : (a ++ b) ++ c = a ++ (b ++ c).
Proof.
  induction a as [| x a IH]; simpl; [reflexivity | now rewrite IH].
Qed.

Lemma append_empty_r (a : string) : a ++ EmptyString = a.
Proof.
  induction a as [| x a IH]; simpl; [reflexivity | now rewrite IH].
Qed.

Lemma append_cancel_l (a b c : string) : a ++ b = a ++ c -> b = c.
Proof.
  induction a as [| x a IH]; simpl; intro H; [exact H |].
  injection H as H. now apply IH.
Qed.

Lemma length_take (n : nat) (s : string) :
  String.length (PyStr.take n s) = Nat.min n (String.length s).
Proof.
  unfold PyStr.take. revert s.
  induction n as [| n IH]; intros [| c s]; simpl; try reflexivity.
  now rewrite IH.
Qed.

Lemma take_all (n : nat) (s : string) :
  String.length s <= n -> PyStr.take n s = s.
Proof.
  unfold PyStr.take. revert s.
  induction n as [| n IH]; intros [| c s]; simpl; intro H;
    try reflexivity; try lia.
  rewrite IH by lia. reflexivity.
Qed.

(** ** The fallback classifier *)

Lemma fallback_is_first_match (kw ind : string) :
  _create_intelligent_fallback kw ind = first_match_classifier kw.
Proof.
  unfold _create_intelligent_fallback, first_match_classifier, FAMILIES.
  cbn [find]. unfold family_matches. cbn [fst snd].
  repeat (destruct (PyStr.any_term_in _ (PyStr.lower kw)); [reflexivity |]).
  reflexivity.
Qed.

(** Searching an ordered list: when the families before [f] do not match
    and [f] does, [find] yields [f]. *)
Lemma find_first_match {A} (p : A -> bool) (pre : list A) (x : A) (post : list A) :
  (forall y, In y pre -> p y = false) ->
  p x = true ->
  find p (pre ++ x :: post)%list = Some x.
Proof.
  induction pre as [| y pre IH]; simpl; intros Hpre Hx.
  - now rewrite Hx.
  - rewrite (Hpre y) by now left. apply IH; [| exact Hx].
    intros z Hz. apply Hpre. now right.
Qed.

Lemma find_no_match {A} (p : A -> bool) (l : list A) :
  (forall y, In y l -> p y = false) -> find p l = None.
Proof.
  induction l as [| y l IH]; simpl; intro H; [reflexivity |].
  rewrite (H y) by now left. apply IH. intros z Hz. apply H. now right.
Qed.

(** C4. The fallback classifier is the first-match search over the five
    families in the order tech, management, safety, customer, finance: the
    lower-cased keyword is tested against each family's terms in that order;
    the first family one of whose terms occurs in it gives the sentence, with
    the keyword itself put between the two halves of that family's template,
    whatever later families would also match; when no family matches the
    generic template is used.  The function is total and takes no world: it
    cannot fail and reaches no endpoint. *)
Theorem fallback_first_match_wins (kw ind : string) :
  _create_intelligent_fallback kw ind = first_match_classifier kw
  /\ FAMILIES = [ (TECH_TERMS, TECH_TEMPLATE);
                  (MANAGEMENT_TERMS, MANAGEMENT_TEMPLATE);
                  (SAFETY_TERMS, SAFETY_TEMPLATE);
                  (CUSTOMER_TERMS, CUSTOMER_TEMPLATE);
                  (FINANCE_TERMS, FINANCE_TEMPLATE) ]
  /\ (forall earlier f later,
        FAMILIES = (earlier ++ f :: later)%list ->
        PyStr.any_term_in (fst f) (PyStr.lower kw) = true ->
        (forall g, In g earlier ->
                   PyStr.any_term_in (fst g) (PyStr.lower kw) = false) ->
        _create_intelligent_fallback kw ind
        = fst (snd f) ++ kw ++ snd (snd f))
  /\ ((forall g, In g FAMILIES ->
                 PyStr.any_term_in (fst g) (PyStr.lower kw) = false) ->
      _create_intelligent_fallback kw ind
      = fst GENERIC_TEMPLATE ++ kw ++ snd GENERIC_TEMPLATE).
Proof.
  split; [apply fallback_is_first_match |].
  split; [reflexivity |].
  split.
  - intros earlier f later Hsplit Hf Hearlier.
    rewrite fallback_is_first_match. unfold first_match_classifier.
    rewrite Hsplit.
    rewrite (find_first_match (family_matches kw) earlier f later);
      [reflexivity | exact Hearlier | exact Hf].
  - intro Hnone.
    rewrite fallback_is_first_match. unfold first_match_classifier.
    rewrite (find_no_match (family_matches kw) FAMILIES Hnone).
    reflexivity.
Qed.

(** A keyword that matches the management family ("management") and the
    safety family ("risk") gets the management sentence. *)
Lemma fallback_first_match_wins_witness :
  _create_intelligent_fallback "Risk Management" "Insurance"
  = "Business professionals engaged in strategic discussion about Risk Management. Conference room setting with whiteboards, documents, and authentic decision-making atmosphere."
  /\ _create_intelligent_fallback "Beekeeping" "Farming"
     = "Professional team working on Beekeeping project in contemporary workplace. Collaborative environment with modern tools, authentic work session with natural lighting and personal touches.".
Proof.
  split.
  - rewrite (proj1 (proj2 (proj2 (fallback_first_match_wins "Risk Management" "Insurance")))
               [ (TECH_TERMS, TECH_TEMPLATE) ]
               (MANAGEMENT_TERMS, MANAGEMENT_TEMPLATE)
               [ (SAFETY_TERMS, SAFETY_TEMPLATE);
                 (CUSTOMER_TERMS, CUSTOMER_TEMPLATE);
                 (FINANCE_TERMS, FINANCE_TEMPLATE) ]).
    + reflexivity.
    + reflexivity.
    + reflexivity.
    + intros g [<- | []]. reflexivity.
  - rewrite (proj2 (proj2 (proj2 (fallback_first_match_wins "Beekeeping" "Farming")))).
    + reflexivity.
    + intros g Hg. simpl in Hg.
      repeat (destruct Hg as [<- | Hg]; [reflexivity |]). destruct Hg.
Defined.

(** ** The alt text *)

Lemma alt_prefix_length : String.length ALT_PREFIX = 30.
Proof. reflexivity. Qed.

Lemma alt_text_short (request : ImageRequest) :
  String.length (headline request) <= 95 ->
  _generate_alt_text request = ALT_PREFIX ++ headline request.
Proof.
  intro H. unfold _generate_alt_text.
  rewrite length_append, alt_prefix_length.
  destruct (Nat.ltb_spec 125 (30 + String.length (headline request)));
    [lia | reflexivity].
Qed.

Lemma alt_text_long (request : ImageRequest) :
  95 < String.length (headline request) ->
  _generate_alt_text request
  = PyStr.take 122 (ALT_PREFIX ++ headline request) ++ "...".
Proof.
  intro H. unfold _generate_alt_text.
  rewrite length_append, alt_prefix_length.
  destruct (Nat.ltb_spec 125 (30 + String.length (headline request)));
    [reflexivity | lia].
Qed.

(** C6, as the code has it.  The prefix is 30 characters long and the cap is
    125, so the headlines left whole are those of at most 95 characters:
    for them the alt text is the prefix followed by the headline.  For every
    longer headline the alt text is the first 122 characters of that string
    followed by three dots, 125 characters in all. *)
Theorem alt_text_capped_at_125 (request : ImageRequest) :
  (String.length (headline request) <= 95 ->
   _generate_alt_text request = ALT_PREFIX ++ headline request)
  /\ (95 < String.length (headline request) ->
      String.length (_generate_alt_text request) = 125
      /\ _generate_alt_text request
         = PyStr.take 122 (ALT_PREFIX ++ headline request) ++ "...").
Proof.
  split; [apply alt_text_short |].
  intro H. rewrite (alt_text_long request H). split; [| reflexivity].
  rewrite length_append, length_take, length_append, alt_prefix_length.
  simpl String.length. lia.
Qed.

Lemma alt_text_capped_at_125_witness :
  _generate_alt_text edge_request
  = "Professional editorial image: Edge Computing Revolution"
  /\ String.length
       (_generate_alt_text
          (request_for (string_of_list_ascii (repeat "a"%char 96)) "kw" None))
     = 125.
Proof.
  split.
  - apply (proj1 (alt_text_capped_at_125 edge_request)). simpl. lia.
  - apply (proj2 (alt_text_capped_at_125
                    (request_for (string_of_list_ascii (repeat "a"%char 96))
                                 "kw" None))).
    vm_compute. lia.
Defined.

(** C6 as worded fails between 96 and 97: a headline of 96 characters is
    within the bound of 97 the claim gives, and its alt text is cut. *)
Lemma alt_text_cuts_headline_of_96 :
  let h := string_of_list_ascii (repeat "a"%char 96) in
  String.length h <= 97
  /\ _generate_alt_text (request_for h "kw" None) <> ALT_PREFIX ++ h.
Proof.
  split; [vm_compute; lia |].
  intro H. apply (f_equal String.length) in H. vm_compute in H. discriminate.
Qed.

(** ** The prompt builder *)

Lemma join_cons (sep p q : string) (rest : list string) :
  PyStr.join sep (p :: q :: rest) = p ++ sep ++ PyStr.join sep (q :: rest).
Proof. reflexivity. Qed.

Lemma join_app (sep : string) (l1 l2 : list string) :
  l1 <> [] -> l2 <> [] ->
  PyStr.join sep (l1 ++ l2)%list
  = PyStr.join sep l1 ++ sep ++ PyStr.join sep l2.
Proof.
  intros H1 H2. induction l1 as [| p l1 IH]; [congruence |].
  destruct l1 as [| q l1].
  - destruct l2 as [| r l2]; [congruence | reflexivity].
  - change ((p :: q :: l1) ++ l2)%list with (p :: q :: (l1 ++ l2))%list.
    rewrite !join_cons, append_assoc. f_equal.
    rewrite append_assoc. f_equal. apply IH. discriminate.
Qed.

(** The part list of lines 203-229 joins to [fixed_block]. *)
Lemma fixed_parts_join (request : ImageRequest) (scene : string) :
  PyStr.join PROMPT_SEPARATOR
    ([ framing_line request; EmptyString; scene_line scene; EmptyString ]
     ++ PHOTOGRAPHY_STYLE ++ [ EmptyString ]
     ++ EDITORIAL_REQUIREMENTS ++ [ EmptyString ]
     ++ TECHNICAL_SPECS)%list
  = fixed_block request scene.
Proof. reflexivity. Qed.

Lemma prompt_without_instructions (request : ImageRequest) (scene : string) :
  PyStr.opt_truthy (custom_prompt_instructions (company_data request)) = false ->
  _build_professional_prompt request scene = fixed_block request scene.
Proof.
  unfold _build_professional_prompt, prompt_parts. intro H.
  destruct (custom_prompt_instructions (company_data request)) as [i |].
  - simpl in H. rewrite H. apply fixed_parts_join.
  - apply fixed_parts_join.
Qed.

Lemma prompt_with_instructions (request : ImageRequest) (scene i : string) :
  custom_prompt_instructions (company_data request) = Some i ->
  i <> EmptyString ->
  _build_professional_prompt request scene
  = fixed_block request scene ++ additional_section i.
Proof.
  unfold _build_professional_prompt, prompt_parts. intros -> Hi.
  destruct i as [| c i]; [congruence |]. cbn [PyStr.truthy].
  rewrite join_app; [| discriminate | discriminate].
  rewrite fixed_parts_join. reflexivity.
Qed.

Lemma additional_section_not_empty (i : string) :
  String.length (additional_section i) <> 0.
Proof.
  unfold additional_section, additional_line.
  rewrite !length_append. simpl. lia.
Qed.

Lemma not_self_extended (a b : string) :
  String.length b <> 0 -> a <> a ++ b.
Proof.
  intros Hb H. apply (f_equal String.length) in H.
  rewrite length_append in H. lia.
Qed.

(** C5, as the code has it.  The prompt starts with the fixed block: the
    framing line with the keyword, the scene line, the photography-style
    section, the editorial-requirements section and the technical
    specifications, in that order, joined by the separator of line 238 with
    an empty line between sections.  Nothing follows the block unless the
    company data carries custom instructions that are a non-empty string; in
    that case exactly one more section follows, an empty line and the line
    "Additional requirements: " with the instructions as given, and it ends
    the prompt. *)
Theorem prompt_sections_in_order (request : ImageRequest) (scene : string) :
  let instructions := custom_prompt_instructions (company_data request) in
  let prompt := _build_professional_prompt request scene in
  (prompt = fixed_block request scene
   <-> PyStr.opt_truthy instructions = false)
  /\ (forall i,
        prompt = fixed_block request scene
                   ++ PROMPT_SEPARATOR ++ PROMPT_SEPARATOR
                   ++ "Additional requirements: " ++ i
        <-> instructions = Some i /\ i <> EmptyString)
  /\ (PyStr.opt_truthy instructions = true
      <-> exists i, instructions = Some i /\ i <> EmptyString).
Proof.
  cbv zeta.
  assert (Hcases :
    PyStr.opt_truthy (custom_prompt_instructions (company_data request)) = false
    \/ exists i, custom_prompt_instructions (company_data request) = Some i
                 /\ i <> EmptyString).
  { destruct (custom_prompt_instructions (company_data request)) as [[| c i] |];
      [left; reflexivity | right | left; reflexivity].
    exists (String c i). split; [reflexivity | discriminate]. }
  split; [| split].
  - split.
    + intro H. destruct Hcases as [Hf | (i & Hi & Hne)]; [exact Hf |].
      rewrite (prompt_with_instructions request scene i Hi Hne) in H.
      symmetry in H.
      exfalso. revert H. apply not_self_extended, additional_section_not_empty.
    + apply prompt_without_instructions.
  - intro i. split.
    + intro H. destruct Hcases as [Hf | (j & Hj & Hne)].
      * rewrite (prompt_without_instructions request scene Hf) in H.
        exfalso. revert H. apply not_self_extended.
        rewrite !length_append. simpl. lia.
      * rewrite (prompt_with_instructions request scene j Hj Hne) in H.
        apply append_cancel_l in H. unfold additional_section in H.
        do 2 apply append_cancel_l in H. unfold additional_line in H.
        apply append_cancel_l in H. subst j. split; assumption.
    + intros [Hi Hne]. apply (prompt_with_instructions request scene i Hi Hne).
  - split.
    + intro H. destruct Hcases as [Hf | Hex]; [congruence | exact Hex].
    + intros (i & Hi & Hne). rewrite Hi. destruct i; [congruence | reflexivity].
Qed.

Lemma prompt_sections_in_order_witness :
  _build_professional_prompt edge_request "A desk."
  = fixed_block edge_request "A desk."
  /\ _build_professional_prompt
       (request_for "h" "kw" (Some "Focus on diverse medical professionals"))
       "A desk."
     = fixed_block (request_for "h" "kw" None) "A desk."
         ++ "\n\nAdditional requirements: Focus on diverse medical professionals".
Proof.
  split.
  - apply (proj1 (prompt_sections_in_order edge_request "A desk.")).
    reflexivity.
  - apply (proj1 (proj2 (prompt_sections_in_order
                           (request_for "h" "kw"
                              (Some "Focus on diverse medical professionals"))
                           "A desk."))
             "Focus on diverse medical professionals").
    split; [reflexivity | discriminate].
Defined.

(** C5 as worded fails for instructions that are supplied as the empty
    string: they are present on the company data, and no "Additional
    requirements" text is in the prompt. *)
Lemma empty_instructions_add_no_section :
  let request := request_for "h" "kw" (Some EmptyString) in
  custom_prompt_instructions (company_data request) <> None
  /\ PyStr.contains "Additional requirements"
       (_build_professional_prompt request "A desk.") = false.
Proof.
  split; [discriminate | vm_compute; reflexivity].
Qed.

(** ** Base64 *)

Module Base64Facts.
Import Base64.

Lemma sextet_char_round_trip (s : sextet) :
  sextet_of_char (char_of_sextet s) = Some s.
Proof.
  destruct s as [[[[[b5 b4] b3] b2] b1] b0].
  destruct b5, b4, b3, b2, b1, b0; reflexivity.
Qed.

Lemma char_of_sextet_not_pad (s : sextet) :
  Ascii.eqb (char_of_sextet s) PAD = false.
Proof.
  destruct s as [[[[[b5 b4] b3] b2] b1] b0].
  destruct b5, b4, b3, b2, b1, b0; reflexivity.
Qed.

Lemma char_of_sextet_not_comma (s : sextet) :
  Ascii.eqb (char_of_sextet s) ","%char = false.
Proof.
  destruct s as [[[[[b5 b4] b3] b2] b1] b0].
  destruct b5, b4, b3, b2, b1, b0; reflexivity.
Qed.

Lemma byte_of_bits_of (x : byte) :
  let '(b7, b6, b5, b4, b3, b2, b1, b0) := bits_of x in
  byte_of b7 b6 b5 b4 b3 b2 b1 b0 = x.
Proof.
  unfold bits_of, byte_of.
  pose proof (Byte.of_bits_to_bits x) as H.
  destruct (Byte.to_bits x) as (b0 & b1 & b2 & b3 & b4 & b5 & b6 & b7).
  exact H.
Qed.

(** The bits of a byte, named, to compute with several bytes at once. *)
Lemma byte_as_bits (x : byte) :
  exists b7 b6 b5 b4 b3 b2 b1 b0,
    bits_of x = (b7, b6, b5, b4, b3, b2, b1, b0)
    /\ byte_of b7 b6 b5 b4 b3 b2 b1 b0 = x.
Proof.
  pose proof (byte_of_bits_of x) as H.
  destruct (bits_of x) as [[[[[[[b7 b6] b5] b4] b3] b2] b1] b0].
  now exists b7, b6, b5, b4, b3, b2, b1, b0.
Qed.

Lemma decode_three (x y z : byte) :
  let '(s1, s2, s3, s4) := sextets3 x y z in
  bytes3 s1 s2 s3 s4 = [x; y; z].
Proof.
  unfold sextets3.
  destruct (byte_as_bits x) as (x7 & x6 & x5 & x4 & x3 & x2 & x1 & x0 & -> & Hx).
  destruct (byte_as_bits y) as (y7 & y6 & y5 & y4 & y3 & y2 & y1 & y0 & -> & Hy).
  destruct (byte_as_bits z) as (z7 & z6 & z5 & z4 & z3 & z2 & z1 & z0 & -> & Hz).
  unfold bytes3. now rewrite Hx, Hy, Hz.
Qed.

Lemma decode_two (x y : byte) :
  let '(s1, s2, s3) := sextets2 x y in
  firstn 2 (bytes3 s1 s2 s3 (sextet_of_index 0)) = [x; y].
Proof.
  unfold sextets2.
  destruct (byte_as_bits x) as (x7 & x6 & x5 & x4 & x3 & x2 & x1 & x0 & -> & Hx).
  destruct (byte_as_bits y) as (y7 & y6 & y5 & y4 & y3 & y2 & y1 & y0 & -> & Hy).
  unfold bytes3. cbn [firstn]. now rewrite Hx, Hy.
Qed.

Lemma decode_one (x : byte) :
  let '(s1, s2) := sextets1 x in
  firstn 1 (bytes3 s1 s2 (sextet_of_index 0) (sextet_of_index 0)) = [x].
Proof.
  unfold sextets1.
  destruct (byte_as_bits x) as (x7 & x6 & x5 & x4 & x3 & x2 & x1 & x0 & -> & Hx).
  unfold bytes3. cbn [firstn]. now rewrite Hx.
Qed.

(** Induction over a list three elements at a time. *)
Lemma list_ind3 {A} (P : list A -> Prop) :
  P [] ->
  (forall x, P [x]) ->
  (forall x y, P [x; y]) ->
  (forall x y z rest, P rest -> P (x :: y :: z :: rest)) ->
  forall l, P l.
Proof.
  intros H0 H1 H2 H3.
  assert (H : forall l, P l /\ (forall x, P (x :: l))
                        /\ (forall x y, P (x :: y :: l))).
  { induction l as [| a l (IHa & IHb & IHc)].
    - repeat split; auto.
    - repeat split; auto. }
  intro l. apply H.
Qed.

(** Decoding what was encoded gives the bytes back. *)
Lemma b64decode_b64encode (d : bytes) :
  b64decode (b64encode d) = Some d.
Proof.
  induction d as [| x | x y | x y z rest IH] using list_ind3.
  - reflexivity.
  - cbn [b64encode]. pose proof (decode_one x) as H.
    destruct (sextets1 x) as [s1 s2].
    cbn [b64decode].
    rewrite !sextet_char_round_trip, !Ascii.eqb_refl. now rewrite H.
  - cbn [b64encode]. pose proof (decode_two x y) as H.
    destruct (sextets2 x y) as [[s1 s2] s3].
    cbn [b64decode].
    rewrite !sextet_char_round_trip, Ascii.eqb_refl, char_of_sextet_not_pad.
    now rewrite H.
  - cbn [b64encode]. pose proof (decode_three x y z) as H.
    destruct (sextets3 x y z) as [[[s1 s2] s3] s4].
    cbn [b64decode].
    rewrite !sextet_char_round_trip, char_of_sextet_not_pad, IH.
    now rewrite H.
Qed.

End Base64Facts.

Lemma after_comma_of_data_uri (payload : string) :
  after_first_comma ("data:image/jpeg;base64," ++ payload) = payload.
Proof. reflexivity. Qed.

(** ** Extraction of the image bytes *)

Lemma bytes_eqb_length (a b : bytes) :
  bytes_eqb a b = true -> List.length a = List.length b.
Proof.
  revert b. induction a as [| x a IH]; intros [| y b]; simpl; intro H;
    try discriminate; [reflexivity |].
  apply andb_true_iff in H as [_ H]. f_equal. now apply IH.
Qed.

Lemma bytes_eqb_eq (a b : bytes) : bytes_eqb a b = true <-> a = b.
Proof.
  revert b. induction a as [| x a IH]; intros [| y b]; simpl.
  - now split.
  - split; discriminate.
  - split; discriminate.
  - rewrite andb_true_iff, IH. split.
    + intros [Hxy Hab]. apply Byte.byte_dec_bl in Hxy. congruence.
    + intro H. inversion H; subst. split; [now apply Byte.byte_dec_lb | reflexivity].
Qed.

Section ExtractionFacts.
Variables J P : bytes.

Lemma payload_accepted_spec (d : bytes) :
  payload_accepted J P d = true
  <-> 100 < List.length d /\ (firstn 3 d = J \/ firstn 8 d = P).
Proof.
  unfold payload_accepted.
  rewrite andb_true_iff, orb_true_iff, Nat.ltb_lt, !bytes_eqb_eq.
  reflexivity.
Qed.

Lemma scan_parts_accepted (ps : list part) (d : bytes) :
  scan_parts J P ps = Some d -> payload_accepted J P d = true.
Proof.
  induction ps as [| p ps IH]; simpl; [discriminate |].
  unfold part_image.
  destruct (inline_data p) as [[[[b |] |]] |]; simpl; auto.
  destruct (payload_accepted J P b) eqn:E; simpl; auto.
  intro H. injection H as <-. exact E.
Qed.

Lemma scan_candidates_accepted (cs : list candidate) (d : bytes) :
  scan_candidates J P cs = Found d -> payload_accepted J P d = true.
Proof.
  induction cs as [| c cs IH]; simpl; [discriminate |].
  unfold scan_candidate.
  destruct (content c) as [[[[| ps] |]] |]; simpl; auto; try discriminate.
  destruct (scan_parts J P ps) as [d' |] eqn:E; simpl; auto.
  intro H. injection H as <-. now apply scan_parts_accepted with ps.
Qed.

(** Whatever the extraction returns has passed the check of lines
    290-292. *)
Lemma extract_accepted (resp : option response) (d : bytes) :
  _extract_image_from_response J P resp = Some d ->
  payload_accepted J P d = true.
Proof.
  unfold _extract_image_from_response.
  destruct resp as [[[[| cs] |]] |]; simpl; try discriminate.
  destruct (scan_candidates J P cs) as [d' | |] eqn:E; try discriminate.
  intro H. injection H as <-. now apply scan_candidates_accepted with cs.
Qed.

(** A payload alone in a response is returned exactly when the check
    accepts it. *)
Lemma extract_single_payload (d : bytes) :
  _extract_image_from_response J P (response_with d)
  = if payload_accepted J P d then Some d else None.
Proof.
  unfold response_with, _extract_image_from_response. simpl.
  unfold scan_candidate. simpl. unfold part_image. simpl.
  destruct (payload_accepted J P d); reflexivity.
Qed.

Lemma accepted_is_truthy (d : bytes) :
  payload_accepted J P d = true -> bytes_truthy (Some d) = true.
Proof.
  intro H. apply payload_accepted_spec in H as [H _].
  destruct d; [simpl in H; lia | reflexivity].
Qed.
End ExtractionFacts.

(** The two literals, read as text (a Rocq string has no escapes: its
    backslash is a backslash). *)
Lemma line_292_literals_as_text :
  LINE_292_JPEG = list_byte_of_string "\xff\xd8\xff"
  /\ List.length LINE_292_JPEG = 12
  /\ LINE_292_PNG = list_byte_of_string "\x89PNG\r\n\x1a\n"
  /\ List.length LINE_292_PNG = 17.
Proof. repeat split. Qed.

(** With the literals of line 292 no payload passes: a slice of at most
    three bytes is never the twelve-byte literal, and a slice of at most
    eight is never the seventeen-byte one. *)
Lemma line_292_accepts_nothing (d : bytes) :
  payload_accepted LINE_292_JPEG LINE_292_PNG d = false.
Proof.
  unfold payload_accepted.
  assert (H3 : bytes_eqb (firstn 3 d) LINE_292_JPEG = false).
  { destruct (bytes_eqb (firstn 3 d) LINE_292_JPEG) eqn:E; [| reflexivity].
    apply bytes_eqb_length in E.
    pose proof (firstn_le_length 3 d) as Hle.
    change (List.length LINE_292_JPEG) with 12 in E. lia. }
  assert (H8 : bytes_eqb (firstn 8 d) LINE_292_PNG = false).
  { destruct (bytes_eqb (firstn 8 d) LINE_292_PNG) eqn:E; [| reflexivity].
    apply bytes_eqb_length in E.
    pose proof (firstn_le_length 8 d) as Hle.
    change (List.length LINE_292_PNG) with 17 in E. lia. }
  rewrite H3, H8. apply andb_false_r.
Qed.

Lemma as_written_extracts_nothing (resp : option response) :
  OpenImagen._extract_image_from_response resp = None.
Proof.
  unfold OpenImagen._extract_image_from_response.
  destruct (_extract_image_from_response LINE_292_JPEG LINE_292_PNG resp)
    as [d |] eqn:E; [| reflexivity].
  apply extract_accepted in E. rewrite line_292_accepts_nothing in E.
  discriminate.
Qed.

(** With the file signatures in the place of the two literals the check
    does what C1 says: a payload longer than 100 bytes that starts with
    [FF D8 FF] is returned, and a payload that has neither signature, or
    fewer than 100 bytes, is not. *)
Lemma with_signatures_extraction_accepts_and_rejects (d : bytes) :
  (firstn 3 d = JPEG_MAGIC -> 100 < List.length d ->
   _extract_image_from_response JPEG_MAGIC PNG_MAGIC (response_with d) = Some d)
  /\ ((firstn 3 d <> JPEG_MAGIC /\ firstn 8 d <> PNG_MAGIC)
      \/ List.length d < 100 ->
      _extract_image_from_response JPEG_MAGIC PNG_MAGIC (response_with d) = None).
Proof.
  rewrite extract_single_payload. split.
  - intros H3 Hlen.
    assert (E : payload_accepted JPEG_MAGIC PNG_MAGIC d = true)
      by (apply payload_accepted_spec; auto).
    now rewrite E.
  - intro H.
    destruct (payload_accepted JPEG_MAGIC PNG_MAGIC d) eqn:E; [| reflexivity].
    apply payload_accepted_spec in E as [Hlen [H3 | H8]];
      destruct H as [[N3 N8] | Hshort]; try contradiction; lia.
Qed.

(** C1, at a payload the claim says is accepted.  [jpeg_payload] is 101
    bytes long and starts with [FF D8 FF]; as the sole inline data of a
    response it is not returned: the extraction finds no image. *)
Theorem extraction_rejects_jpeg_payload :
  firstn 3 jpeg_payload = JPEG_MAGIC
  /\ List.length jpeg_payload = 101
  /\ OpenImagen._extract_image_from_response (response_with jpeg_payload) = None.
Proof.
  split; [reflexivity |]. split; [reflexivity |].
  vm_compute. reflexivity.
Qed.

(** ** The retry loop and the facade, for any pair of literals *)

Section PipelineFacts.
Variables J P : bytes.
Variable w : world.

Lemma attempt_body_accepted prompt m a st d st' :
  attempt_body J P w prompt m a st = (Ok (Some d), st') ->
  payload_accepted J P d = true.
Proof.
  unfold attempt_body, try_except, bind, call_image_endpoint.
  destruct (image_endpoint w prompt (image_calls st)) as [resp | e]; simpl.
  - destruct (_extract_image_from_response J P resp) as [d0 |] eqn:E; simpl.
    + destruct d0 as [| b d0]; simpl; [discriminate |].
      intro H. injection H as <- _. now apply extract_accepted with resp.
    + discriminate.
  - destruct (is_Exception e); [| discriminate].
    destruct (a <? m - 1)%Z; discriminate.
Qed.

Lemma retry_loop_accepted prompt m attempts st d st' :
  retry_loop J P w prompt m attempts st = (Ok (Some d), st') ->
  payload_accepted J P d = true.
Proof.
  revert st. induction attempts as [| a rest IH]; intro st; simpl.
  - discriminate.
  - unfold bind at 1.
    destruct (attempt_body J P w prompt m a st) as [[[d0 |] | e] st1] eqn:E.
    + intro H. injection H as <- _. now apply attempt_body_accepted in E.
    + apply IH.
    + discriminate.
Qed.

(** What the [try] block of [generate_image] can return. *)
Lemma pipeline_returns request t0 st r st' :
  generation_pipeline J P w request t0 st = (Ok r, st') ->
  (exists d,
      payload_accepted J P d = true
      /\ success r = true
      /\ image_data r = Some d
      /\ image_url r = DATA_URI_PREFIX ++ Base64.b64encode d
      /\ alt_text r = _generate_alt_text request
      /\ error r = None)
  \/ (exists seconds, r = failure_response NO_IMAGE_ERROR seconds).
Proof.
  unfold generation_pipeline. unfold bind at 1.
  destruct (_generate_intelligent_scene w (keyword request)
              (industry (company_data request)) st) as [[scene | e] st1];
    [| discriminate].
  unfold bind at 1.
  destruct (_generate_with_retry J P w
              (_build_professional_prompt request scene) 3 st1)
    as [[o | e] st2] eqn:Hr; [| discriminate].
  destruct o as [[| b d] |]; cbn [bytes_truthy];
    unfold bind, read_clock, ret; intro H; injection H as <- _.
  - right. eexists. reflexivity.
  - left. exists (b :: d). repeat split.
    unfold _generate_with_retry in Hr. now apply retry_loop_accepted in Hr.
  - right. eexists. reflexivity.
Qed.


Lemma boundary_lets_through request st e st' :
  generate_image J P w request st = (Raise e, st') ->
  is_Exception e = false.
Proof.
  unfold generate_image. unfold bind at 1. cbn [read_clock].
  unfold try_except.
  match goal with
  | |- context [generation_pipeline J P w request ?t ?s] =>
      destruct (generation_pipeline J P w request t s) as [[r | e0] st2]
  end.
  - discriminate.
  - destruct (is_Exception e0) eqn:He.
    + unfold bind, read_clock, ret. discriminate.
    + intro H. injection H as <- _. exact He.
Qed.





(** Every response the facade returns. *)
Lemma generate_image_returns request st r st' :
  generate_image J P w request st = (Ok r, st') ->
  (exists d,
      payload_accepted J P d = true
      /\ success r = true
      /\ image_data r = Some d
      /\ image_url r = DATA_URI_PREFIX ++ Base64.b64encode d
      /\ alt_text r = _generate_alt_text request
      /\ error r = None)
  \/ (exists message seconds, r = failure_response message seconds).
Proof.
  unfold generate_image. unfold bind at 1. cbn [read_clock].
  unfold try_except.
  match goal with
  | |- context [generation_pipeline J P w request ?t ?s] =>
      destruct (generation_pipeline J P w request t s) as [[r0 | e0] st2] eqn:Hp
  end.
  - intro H. injection H as <- _.
    apply pipeline_returns in Hp as [Hs | [seconds Hf]]; [left; exact Hs |].
    right. now exists NO_IMAGE_ERROR, seconds.
  - destruct (is_Exception e0).
    + unfold bind, read_clock, ret. intro H. injection H as <- _.
      right. eexists. eexists. reflexivity.
    + discriminate.
Qed.

End PipelineFacts.

(** ** The response invariant *)

(** The invariant for any pair of literals: a response is a success exactly
    when it carries bytes that passed the check of lines 290-292, and a
    failure exactly when it carries an error. *)
Lemma response_invariant_any_literals J P w request st r st' :
  generate_image J P w request st = (Ok r, st') ->
  (success r = true
   <-> exists d, image_data r = Some d /\ d <> []
                 /\ 100 < List.length d
                 /\ (firstn 3 d = J \/ firstn 8 d = P))
  /\ (success r = false <-> exists m, error r = Some m).
Proof.
  intro H. apply generate_image_returns in H
    as [(d & Hacc & Hs & Hd & _ & _ & He) | (m & s & ->)].
  - apply payload_accepted_spec in Hacc as [Hlen Hsig]. split.
    + split; [| intros _; exact Hs]. intros _. exists d.
      repeat split; auto. intros ->. simpl in Hlen. lia.
    + rewrite Hs, He. split; [discriminate | intros [m Hm]; discriminate].
  - simpl. split.
    + split; [discriminate | intros (d & Hd & _); discriminate].
    + split; [intros _; now exists m | reflexivity].
Qed.

(** C2. Every response that [generate_image] returns is a success exactly
    when its image data is a non-empty byte string that starts with the JPEG
    or the PNG signature, and a failure exactly when its error is set; a
    success has no error, and a failure has neither image data nor a data
    URI. *)
Theorem response_is_success_or_failure
  (w : world) (request : ImageRequest) (st st' : state) (r : ImageResponse) :
  OpenImagen.generate_image w request st = (Ok r, st') ->
  (success r = true
   <-> exists d, image_data r = Some d /\ d <> []
                 /\ (firstn 3 d = JPEG_MAGIC \/ firstn 8 d = PNG_MAGIC))
  /\ (success r = false <-> exists m, error r = Some m)
  /\ (success r = true -> error r = None)
  /\ (success r = false -> image_data r = None /\ image_url r = EmptyString).
Proof.
  unfold OpenImagen.generate_image. intro H.
  apply generate_image_returns in H
    as [(d & Hacc & _) | (m & s & ->)].
  - rewrite line_292_accepts_nothing in Hacc. discriminate.
  - simpl. repeat split; try discriminate; auto.
    + intros (d & Hd & _). discriminate.
    + intros _. now exists m.
Qed.

Lemma response_is_success_or_failure_witness :
  exists r st',
    OpenImagen.generate_image silent_world edge_request initial_state = (Ok r, st')
    /\ success r = false
    /\ error r = Some "Failed to generate image after retries"
    /\ image_data r = None.
Proof.
  eexists. eexists. split; [vm_compute; reflexivity |].
  split; [reflexivity |]. split; [reflexivity |].
  refine (proj1 (proj2 (proj2 (proj2
    (response_is_success_or_failure silent_world edge_request initial_state
       _ _ _))) _)).
  - vm_compute. reflexivity.
  - reflexivity.
Defined.

(** ** The data URI *)

(** C9. Whatever the two literals of line 292 are, a success response of
    [generate_image] has as [image_url] the text "data:image/jpeg;base64,"
    followed by the base64 text of its [image_data]; decoding what follows
    the comma gives [image_data] back.  The label is [image/jpeg] for every
    success, whichever of the two prefix comparisons let the bytes in. *)
Theorem data_uri_round_trip
  (J P : bytes) (w : world) (request : ImageRequest) (st st' : state)
  (r : ImageResponse) :
  generate_image J P w request st = (Ok r, st') ->
  success r = true ->
  exists d,
    image_data r = Some d
    /\ image_url r = "data:image/jpeg;base64," ++ Base64.b64encode d
    /\ Base64.b64decode (after_first_comma (image_url r)) = Some d.
Proof.
  intros H Hs. apply generate_image_returns in H
    as [(d & _ & _ & Hd & Hu & _) | (m & s & ->)]; [| discriminate].
  exists d. split; [exact Hd |]. split; [exact Hu |].
  rewrite Hu. unfold DATA_URI_PREFIX. rewrite after_comma_of_data_uri.
  apply Base64Facts.b64decode_b64encode.
Qed.

(** With the file signatures as the literals, an answer that carries PNG
    bytes yields a success whose URI is labelled [image/jpeg]. *)
Lemma data_uri_round_trip_witness :
  exists r st',
    generate_image JPEG_MAGIC PNG_MAGIC png_world edge_request initial_state
    = (Ok r, st')
    /\ success r = true
    /\ image_data r = Some png_payload
    /\ exists d,
         image_data r = Some d
         /\ image_url r = "data:image/jpeg;base64," ++ Base64.b64encode d
         /\ Base64.b64decode (after_first_comma (image_url r)) = Some d.
Proof.
  eexists. eexists. split; [vm_compute; reflexivity |].
  split; [reflexivity |]. split; [reflexivity |].
  eapply (data_uri_round_trip JPEG_MAGIC PNG_MAGIC png_world edge_request
            initial_state).
  - vm_compute. reflexivity.
  - reflexivity.
Defined.

(** ** The facade as the error boundary *)


(** ** The retry loop *)

Section RetryFacts.
Variables J P : bytes.
Variable w : world.

(** A failed attempt that is not the last one: the loop sleeps
    [5 * (attempt + 1)] and goes on. *)
Lemma failed_attempt_goes_on prompt (m a : Z) st :
  attempt_fails J P (image_endpoint w prompt (image_calls st)) ->
  (a < m - 1)%Z ->
  attempt_body J P w prompt m a st
  = (Ok None, after_attempts st 1 [(5 * (a + 1))%Z]).
Proof.
  unfold attempt_fails, attempt_body, try_except, bind, call_image_endpoint.
  intros Hf Ha.
  destruct (image_endpoint w prompt (image_calls st)) as [resp | e].
  - rewrite Hf. reflexivity.
  - rewrite Hf. apply Z.ltb_lt in Ha. rewrite Ha. reflexivity.
Qed.

(** The last attempt raises: the exception leaves the loop. *)
Lemma last_attempt_raises prompt (m a : Z) st e :
  image_endpoint w prompt (image_calls st) = Raise e ->
  (a = m - 1)%Z ->
  attempt_body J P w prompt m a st = (Raise e, after_attempts st 1 []).
Proof.
  unfold attempt_body, try_except, bind, call_image_endpoint.
  intros He Ha. rewrite He.
  assert (Hlt : (a <? m - 1)%Z = false) by (apply Z.ltb_ge; lia).
  rewrite Hlt. unfold after_attempts. rewrite app_nil_r.
  destruct (is_Exception e); reflexivity.
Qed.

(** An attempt whose answer holds no image: the loop sleeps and goes on,
    also after the last attempt. *)
Lemma empty_attempt_goes_on prompt (m a : Z) st resp :
  image_endpoint w prompt (image_calls st) = Ok resp ->
  bytes_truthy (_extract_image_from_response J P resp) = false ->
  attempt_body J P w prompt m a st
  = (Ok None, after_attempts st 1 [(5 * (a + 1))%Z]).
Proof.
  unfold attempt_body, try_except, bind, call_image_endpoint.
  intros Hr Ht. rewrite Hr, Ht. reflexivity.
Qed.

(** An attempt whose answer holds an image: the loop returns it. *)
Lemma good_attempt_returns prompt (m a : Z) st resp d :
  image_endpoint w prompt (image_calls st) = Ok resp ->
  _extract_image_from_response J P resp = Some d ->
  attempt_body J P w prompt m a st = (Ok (Some d), after_attempts st 1 []).
Proof.
  unfold attempt_body, try_except, bind, call_image_endpoint.
  intros Hr Hd. rewrite Hr, Hd.
  rewrite (accepted_is_truthy J P d (extract_accepted J P resp d Hd)).
  unfold after_attempts. rewrite app_nil_r. reflexivity.
Qed.

(** Exhaustion: after [len] failed attempts the last attempt decides. *)
Lemma retry_loop_exhaustion prompt (m : Z) (len : nat) :
  forall (a : nat) (st : state),
    Z.of_nat (a + S len) = m ->
    (forall j, j < len ->
       attempt_fails J P (image_endpoint w prompt (image_calls st + j))) ->
    (forall e,
        image_endpoint w prompt (image_calls st + len) = Raise e ->
        fst (retry_loop J P w prompt m (map Z.of_nat (seq a (S len))) st)
        = Raise e)
    /\ (forall resp,
          image_endpoint w prompt (image_calls st + len) = Ok resp ->
          bytes_truthy (_extract_image_from_response J P resp) = false ->
          fst (retry_loop J P w prompt m (map Z.of_nat (seq a (S len))) st)
          = Ok None).
Proof.
  induction len as [| len IH]; intros a st Hm Hfail.
  - rewrite Nat.add_0_r. cbn [seq map retry_loop]. split.
    + intros e He. unfold bind.
      rewrite (last_attempt_raises prompt m (Z.of_nat a) st e He) by lia.
      reflexivity.
    + intros resp Hr Ht. unfold bind.
      rewrite (empty_attempt_goes_on prompt m (Z.of_nat a) st resp Hr Ht).
      reflexivity.
  - assert (H0 : attempt_fails J P (image_endpoint w prompt (image_calls st))).
    { rewrite <- (Nat.add_0_r (image_calls st)). apply Hfail. lia. }
    assert (Hstep :
      forall k, image_calls (after_attempts st 1 [(5 * (Z.of_nat a + 1))%Z]) + k
                = image_calls st + S k).
    { intro k. simpl. lia. }
    specialize (IH (S a) (after_attempts st 1 [(5 * (Z.of_nat a + 1))%Z])).
    destruct IH as [IHraise IHnone].
    + lia.
    + intros j Hj. rewrite Hstep. apply Hfail. lia.
    + change (seq a (S (S len))) with (a :: seq (S a) (S len)).
      cbn [map retry_loop].
      assert (Hgo :
        forall k : option bytes -> M (option bytes),
          bind (attempt_body J P w prompt m (Z.of_nat a)) k st
          = k None (after_attempts st 1 [(5 * (Z.of_nat a + 1))%Z])).
      { intro k. unfold bind.
        rewrite (failed_attempt_goes_on prompt m (Z.of_nat a) st H0) by lia.
        reflexivity. }
      rewrite Hgo. split.
      * intros e He. apply IHraise. now rewrite Hstep.
      * intros resp Hr Ht. apply (IHnone resp); [| exact Ht].
        now rewrite Hstep.
Qed.

(** Two failed attempts and a third that holds an image: the image is
    returned after three calls and sleeps of 5 and 10. *)
Lemma third_attempt_returns prompt st resp d :
  attempt_fails J P (image_endpoint w prompt (image_calls st)) ->
  attempt_fails J P (image_endpoint w prompt (S (image_calls st))) ->
  image_endpoint w prompt (S (S (image_calls st))) = Ok resp ->
  _extract_image_from_response J P resp = Some d ->
  _generate_with_retry J P w prompt 3 st
  = (Ok (Some d), after_attempts st 3 [5; 10]%Z).
Proof.
  intros H1 H2 H3 Hd.
  unfold _generate_with_retry, range.
  change (map Z.of_nat (seq 0 (Z.to_nat 3))) with [0; 1; 2]%Z.
  cbn [retry_loop]. unfold bind at 1.
  rewrite (failed_attempt_goes_on prompt 3 0 st H1) by lia.
  change (5 * (0 + 1))%Z with 5%Z. cbv beta iota.
  unfold bind at 1.
  rewrite (failed_attempt_goes_on prompt 3 1 (after_attempts st 1 [5]%Z) H2)
    by lia.
  change (5 * (1 + 1))%Z with 10%Z. cbv beta iota.
  unfold bind at 1.
  rewrite (good_attempt_returns prompt 3 2
             (after_attempts (after_attempts st 1 [5]%Z) 1 [10]%Z) resp d H3 Hd).
  unfold ret, after_attempts. cbn. rewrite <- !app_assoc. reflexivity.
Qed.

End RetryFacts.

(** With the file signatures as the literals, the scenario of C7 runs as
    the claim says: the JPEG bytes come back after three calls and sleeps of
    5 and 10. *)
Lemma with_signatures_third_attempt_returns :
  _generate_with_retry JPEG_MAGIC PNG_MAGIC (retry_world jpeg_payload)
    "prompt" 3 initial_state
  = (Ok (Some jpeg_payload),
     {| text_calls := 0; image_calls := 3; sleeps := [5; 10]%Z;
        clock_reads := 0; client_inits := 0 |}).
Proof.
  rewrite (third_attempt_returns JPEG_MAGIC PNG_MAGIC (retry_world jpeg_payload)
             "prompt" initial_state (response_with jpeg_payload) jpeg_payload);
    reflexivity.
Qed.

(** C7, at a transport stub the claim speaks of.  The stub raises on the
    first two calls and answers the third with a response whose inline data
    is 101 bytes that start with [FF D8 FF].  The loop calls it three times,
    but it sleeps three times, 5, 10 and 15, and returns [None]. *)
Theorem retry_returns_none_for_jpeg_answer :
  OpenImagen._generate_with_retry (retry_world jpeg_payload) "prompt" 3
    initial_state
  = (Ok None,
     {| text_calls := 0; image_calls := 3; sleeps := [5; 10; 15]%Z;
        clock_reads := 0; client_inits := 0 |}).
Proof. vm_compute. reflexivity. Qed.

(** C8. Let the loop run with [n + 1] attempts of which the first [n] fail
    (the endpoint raises an [Exception], or answers without an image).  If
    the endpoint raises on the last attempt, that exception is raised by
    [_generate_with_retry]; if it answers and the answer holds no image,
    [_generate_with_retry] returns [None]. *)
Theorem retry_exhaustion_is_asymmetric
  (w : world) (prompt : string) (n : nat) (st : state) :
  (forall j, j < n ->
     attempt_fails LINE_292_JPEG LINE_292_PNG
       (image_endpoint w prompt (image_calls st + j))) ->
  (forall e,
      image_endpoint w prompt (image_calls st + n) = Raise e ->
      fst (OpenImagen._generate_with_retry w prompt (Z.of_nat (S n)) st)
      = Raise e)
  /\ (forall resp,
        image_endpoint w prompt (image_calls st + n) = Ok resp ->
        OpenImagen._extract_image_from_response resp = None ->
        fst (OpenImagen._generate_with_retry w prompt (Z.of_nat (S n)) st)
        = Ok None).
Proof.
  intro Hfail.
  unfold OpenImagen._generate_with_retry, OpenImagen._extract_image_from_response,
    _generate_with_retry, range.
  rewrite Nat2Z.id.
  destruct (retry_loop_exhaustion LINE_292_JPEG LINE_292_PNG w prompt
              (Z.of_nat (S n)) n 0 st) as [Hraise Hnone].
  - f_equal.
  - exact Hfail.
  - split; [exact Hraise |].
    intros resp Hr Hx. apply (Hnone resp Hr). now rewrite Hx.
Qed.

Lemma retry_exhaustion_is_asymmetric_witness :
  fst (OpenImagen._generate_with_retry
         (failing_world (an_error "quota exceeded")) "prompt" 3 initial_state)
  = Raise (an_error "quota exceeded")
  /\ fst (OpenImagen._generate_with_retry silent_world "prompt" 3 initial_state)
     = Ok None.
Proof.
  split.
  - apply (proj1 (retry_exhaustion_is_asymmetric
                    (failing_world (an_error "quota exceeded")) "prompt" 2
                    initial_state (fun j _ => eq_refl))).
    reflexivity.
  - apply (proj2 (retry_exhaustion_is_asymmetric silent_world "prompt" 2
                    initial_state (fun j _ => eq_refl)) None).
    + reflexivity.
    + reflexivity.
Defined.

(** ** The constructor and the API key *)

Lemma opt_truthy_false (o : option string) :
  PyStr.opt_truthy o = false <-> o = None \/ o = Some EmptyString.
Proof.
  destruct o as [[| c s] |]; simpl; split; auto; try discriminate;
    intros [H | H]; discriminate.
Qed.

(** An empty key given to the constructor, or none, leaves the choice to
    the environment. *)
Lemma empty_key_defers_to_environment (w : world) :
  OpenImagen.py_or (Some EmptyString) (OpenImagen._get_api_key w)
  = OpenImagen._get_api_key w
  /\ OpenImagen.py_or None (OpenImagen._get_api_key w)
     = OpenImagen._get_api_key w.
Proof. split; reflexivity. Qed.

(** The nested [or] of lines 66-68 finds the first non-empty value. *)
Lemma get_api_key_is_first_non_empty (w : world) :
  let lookup :=
    first_non_empty [ getenv w "GOOGLE_API_KEY"; getenv w "GEMINI_API_KEY";
                      getenv w "GOOGLE_GEMINI_API_KEY" ] in
  (forall k, lookup = Some k ->
             k <> EmptyString /\ OpenImagen._get_api_key w = Some k)
  /\ (lookup = None -> PyStr.opt_truthy (OpenImagen._get_api_key w) = false).
Proof.
  unfold first_non_empty, OpenImagen._get_api_key, OpenImagen.py_or.
  cbn [find].
  destruct (getenv w "GOOGLE_API_KEY") as [[| c1 k1] |];
    destruct (getenv w "GEMINI_API_KEY") as [[| c2 k2] |];
    destruct (getenv w "GOOGLE_GEMINI_API_KEY") as [[| c3 k3] |];
    cbn; split;
    try (intros k H; injection H as <-; split; [discriminate | reflexivity]);
    try discriminate; try reflexivity.
Qed.

(** C10. A constructor called with the empty string as [api_key] behaves as
    one called without a key.  The key is then looked up in the environment:
    the first of [GOOGLE_API_KEY], [GEMINI_API_KEY], [GOOGLE_GEMINI_API_KEY]
    that holds a non-empty string is the key the client is built with, and
    the key the constructor keeps when the client is built; a constructor
    that returns has built one client with exactly that key.  The
    constructor raises the [ValueError] of line 48, before any client is
    built, exactly when none of the three holds a non-empty string, that is,
    when each is unset or empty. *)
Theorem empty_api_key_is_absent (w : world) (st : state) :
  let lookup :=
    first_non_empty [ getenv w "GOOGLE_API_KEY"; getenv w "GEMINI_API_KEY";
                      getenv w "GOOGLE_GEMINI_API_KEY" ] in
  OpenImagen.__init__ w (Some EmptyString) st = OpenImagen.__init__ w None st
  /\ (forall k,
        lookup = Some k ->
        k <> EmptyString
        /\ OpenImagen.__init__ w (Some EmptyString) st
           = OpenImagen.__init__ w (Some k) st)
  /\ (OpenImagen.__init__ w (Some EmptyString) st = (Raise OpenImagen.KEY_REQUIRED, st)
      <-> lookup = None)
  /\ (lookup = None
      <-> forall v, In v API_KEY_VARIABLES ->
                    getenv w v = None \/ getenv w v = Some EmptyString)
  /\ (forall k,
        lookup = Some k ->
        OpenImagen.__init__ w (Some EmptyString) st
        = (match genai_client w k with
           | Ok _ => Ok k
           | Raise e =>
               match exn_class_of e with
               | ImportError => Raise OpenImagen.PACKAGE_REQUIRED
               | _ => Raise e
               end
           end,
           snd (make_client w k st)))
  /\ (forall k st',
        OpenImagen.__init__ w (Some EmptyString) st = (Ok k, st') ->
        lookup = Some k
        /\ genai_client w k = Ok tt
        /\ client_inits st' = S (client_inits st)).
Proof.
  cbv zeta.
  pose proof (get_api_key_is_first_non_empty w) as [Hsome Hnone].
  cbv zeta in Hsome, Hnone.
  split; [reflexivity |]. split; [| split; [| split; [| split]]].
  - intros k Hk. destruct (Hsome k Hk) as [Hne Hkey]. split; [exact Hne |].
    unfold OpenImagen.__init__. cbn [OpenImagen.py_or PyStr.opt_truthy PyStr.truthy].
    rewrite Hkey. destruct k as [| c k]; [congruence | reflexivity].
  - unfold OpenImagen.__init__.
    cbn [OpenImagen.py_or PyStr.opt_truthy PyStr.truthy].
    destruct (first_non_empty _) as [k |] eqn:Hl.
    + destruct (Hsome k eq_refl) as [Hne Hkey]. rewrite Hkey.
      destruct k as [| c k]; [congruence |].
      split; [| discriminate].
      unfold make_client.
      destruct (genai_client w (String c k)) as [[] | e].
      * discriminate.
      * destruct (exn_class_of e); intro H; apply (f_equal snd) in H;
          apply (f_equal client_inits) in H; simpl in H; lia.
    + specialize (Hnone eq_refl).
      destruct (OpenImagen._get_api_key w) as [[| c k] |];
        [split; reflexivity | discriminate | split; reflexivity].
  - unfold first_non_empty, API_KEY_VARIABLES. cbn [find]. split.
    + intros H v Hv. apply opt_truthy_false.
      destruct (PyStr.opt_truthy (getenv w "GOOGLE_API_KEY")) eqn:E1;
        [destruct (getenv w "GOOGLE_API_KEY") as [[| ? ?] |]; discriminate |].
      destruct (PyStr.opt_truthy (getenv w "GEMINI_API_KEY")) eqn:E2;
        [destruct (getenv w "GEMINI_API_KEY") as [[| ? ?] |]; discriminate |].
      destruct (PyStr.opt_truthy (getenv w "GOOGLE_GEMINI_API_KEY")) eqn:E3;
        [destruct (getenv w "GOOGLE_GEMINI_API_KEY") as [[| ? ?] |]; discriminate |].
      destruct Hv as [<- | [<- | [<- | []]]]; assumption.
    + intro H.
      assert (E1 : PyStr.opt_truthy (getenv w "GOOGLE_API_KEY") = false)
        by (apply opt_truthy_false, H; simpl; auto).
      assert (E2 : PyStr.opt_truthy (getenv w "GEMINI_API_KEY") = false)
        by (apply opt_truthy_false, H; simpl; auto).
      assert (E3 : PyStr.opt_truthy (getenv w "GOOGLE_GEMINI_API_KEY") = false)
        by (apply opt_truthy_false, H; simpl; auto).
      rewrite E1, E2, E3. reflexivity.
  - intros k Hk. destruct (Hsome k Hk) as [Hne Hkey].
    unfold OpenImagen.__init__.
    cbn [OpenImagen.py_or PyStr.opt_truthy PyStr.truthy].
    rewrite Hkey. destruct k as [| c k]; [congruence |].
    unfold make_client. cbn [snd].
    destruct (genai_client w (String c k)) as [[] | e]; [reflexivity |].
    destruct (exn_class_of e); reflexivity.
  - intros k st'. unfold OpenImagen.__init__.
    cbn [OpenImagen.py_or PyStr.opt_truthy PyStr.truthy].
    destruct (first_non_empty _) as [k1 |] eqn:Hl.
    + destruct (Hsome k1 eq_refl) as [Hne Hkey]. rewrite Hkey.
      destruct k1 as [| c k1]; [congruence |].
      unfold make_client.
      destruct (genai_client w (String c k1)) as [[] | e] eqn:Hc.
      * intro H. injection H as <- <-. repeat split. exact Hc.
      * destruct (exn_class_of e); discriminate.
    + specialize (Hnone eq_refl).
      destruct (OpenImagen._get_api_key w) as [[| c k1] |];
        discriminate.
Qed.

(** The second variable holds the first non-empty value: it is the key. *)
Example init_uses_second_variable :
  OpenImagen.__init__ (env_world (Some EmptyString) (Some "key-2") (Some "key-3"))
    (Some EmptyString) initial_state
  = (Ok "key-2",
     {| text_calls := 0; image_calls := 0; sleeps := []; clock_reads := 0;
        client_inits := 1 |}).
Proof. reflexivity. Qed.

Example init_without_any_key :
  OpenImagen.__init__ (env_world None (Some EmptyString) None)
    (Some EmptyString) initial_state
  = (Raise OpenImagen.KEY_REQUIRED, initial_state).
Proof. reflexivity. Qed.

Lemma empty_api_key_is_absent_witness :
  OpenImagen.__init__ (env_world None (Some EmptyString) (Some "key-3"))
    (Some EmptyString) initial_state
  = OpenImagen.__init__ (env_world None (Some EmptyString) (Some "key-3"))
      (Some "key-3") initial_state
  /\ OpenImagen.__init__ (env_world None (Some EmptyString) None)
       (Some EmptyString) initial_state
     = (Raise OpenImagen.KEY_REQUIRED, initial_state)
  /\ OpenImagen.__init__ (env_world (Some EmptyString) (Some "key-2") (Some "key-3"))
       (Some EmptyString) initial_state
     = (Ok "key-2",
        {| text_calls := 0; image_calls := 0; sleeps := []; clock_reads := 0;
           client_inits := 1 |}).
Proof.
  split; [| split].
  - apply (proj1 (proj2 (empty_api_key_is_absent
                           (env_world None (Some EmptyString) (Some "key-3"))
                           initial_state)) "key-3").
    reflexivity.
  - apply (proj1 (proj2 (proj2 (empty_api_key_is_absent
                                  (env_world None (Some EmptyString) None)
                                  initial_state)))).
    reflexivity.
  - apply (proj1 (proj2 (proj2 (proj2 (proj2
             (empty_api_key_is_absent
                (env_world (Some EmptyString) (Some "key-2") (Some "key-3"))
                initial_state))))) "key-2").
    reflexivity.
Defined.

(** * Further properties *)

(** ** The retry loop: calls and sleeps *)

Lemma after_attempts_none (st : state) : after_attempts st 0 [] = st.
Proof.
  destruct st. unfold after_attempts. simpl. now rewrite app_nil_r.
Qed.

Lemma after_attempts_more (st : state) (j k : nat) (l1 l2 : list Z) :
  after_attempts (after_attempts st j l1) k l2
  = after_attempts st (j + k) (l1 ++ l2).
Proof.
  unfold after_attempts. simpl. f_equal; [lia | now rewrite app_assoc].
Qed.

Lemma backoff_next (k : nat) :
  backoff (S k) = (backoff k ++ [(5 * (Z.of_nat k + 1))%Z])%list.
Proof.
  unfold backoff. rewrite seq_S, map_app. reflexivity.
Qed.

Lemma backoff_shifted (a k : nat) :
  map (fun i => (5 * (Z.of_nat i + 1))%Z) (seq 0 (a + k))
  = (backoff a ++ map (fun i => (5 * (Z.of_nat i + 1))%Z) (seq a k))%list.
Proof.
  unfold backoff. rewrite seq_app, map_app. reflexivity.
Qed.

Section RetryEffects.
Variables J P : bytes.
Variable w : world.

(** Failed attempts that are not the last: the loop goes through them,
    one call and one sleep each. *)
Lemma failed_attempts_go_on prompt (m : Z) (k : nat) :
  forall (a : nat) (st : state) (rest : list Z),
    (Z.of_nat (a + k) < m)%Z ->
    (forall j, j < k ->
       attempt_fails J P (image_endpoint w prompt (image_calls st + j))) ->
    retry_loop J P w prompt m (map Z.of_nat (seq a k) ++ rest)%list st
    = retry_loop J P w prompt m rest
        (after_attempts st k
           (map (fun i => (5 * (Z.of_nat i + 1))%Z) (seq a k))).
Proof.
  induction k as [| k IH]; intros a st rest Hm Hfail.
  - cbn [seq map app]. now rewrite after_attempts_none.
  - cbn [seq map app retry_loop].
    assert (H0 : attempt_fails J P (image_endpoint w prompt (image_calls st))).
    { rewrite <- (Nat.add_0_r (image_calls st)). apply Hfail. lia. }
    unfold bind at 1.
    rewrite (failed_attempt_goes_on J P w prompt m (Z.of_nat a) st H0) by lia.
    rewrite IH.
    + rewrite after_attempts_more. reflexivity.
    + lia.
    + intros j Hj.
      replace (image_calls (after_attempts st 1 [(5 * (Z.of_nat a + 1))%Z]) + j)
        with (image_calls st + S j) by (simpl; lia).
      apply Hfail. lia.
Qed.

(** What one attempt does to the state: one call of the image endpoint,
    at most one sleep, nothing else. *)
Lemma attempt_effects prompt m a st r st' :
  attempt_body J P w prompt m a st = (r, st') ->
  exists slept, st' = after_attempts st 1 slept.
Proof.
  unfold attempt_body, try_except, bind, call_image_endpoint.
  destruct (image_endpoint w prompt (image_calls st)) as [resp | e].
  - destruct (bytes_truthy (_extract_image_from_response J P resp));
      unfold ret, sleep; cbn; intro H; injection H as _ <-.
    + exists []. unfold after_attempts. cbn. now rewrite app_nil_r.
    + eexists. reflexivity.
  - destruct (is_Exception e).
    + destruct (a <? m - 1)%Z; unfold ret, sleep, raise; cbn;
        intro H; injection H as _ <-.
      * eexists. reflexivity.
      * exists []. unfold after_attempts. cbn. now rewrite app_nil_r.
    + intro H. injection H as _ <-.
      exists []. unfold after_attempts. cbn. now rewrite app_nil_r.
Qed.

Lemma retry_loop_effects prompt m attempts :
  forall st r st',
    retry_loop J P w prompt m attempts st = (r, st') ->
    exists k slept, k <= List.length attempts
                    /\ st' = after_attempts st k slept.
Proof.
  induction attempts as [| a rest IH]; intros st r st'; cbn [retry_loop].
  - unfold ret. intro H. injection H as _ <-.
    exists 0, []. split; [lia | now rewrite after_attempts_none].
  - unfold bind at 1.
    destruct (attempt_body J P w prompt m a st) as [[[d |] | e] st1] eqn:E;
      apply attempt_effects in E as [l1 ->].
    + unfold ret. intro H. injection H as _ <-.
      exists 1, l1. split; [simpl; lia | reflexivity].
    + intro H. apply IH in H as (k & l2 & Hk & ->).
      exists (1 + k), (l1 ++ l2)%list. split; [simpl; lia |].
      apply after_attempts_more.
    + intro H. injection H as _ <-.
      exists 1, l1. split; [simpl; lia | reflexivity].
Qed.

End RetryEffects.

Lemma range_length (n : Z) : List.length (range n) = Z.to_nat n.
Proof. unfold range. now rewrite length_map, length_seq. Qed.

Lemma range_split (m : Z) (k : nat) :
  (Z.of_nat k < m)%Z ->
  range m = (map Z.of_nat (seq 0 k)
             ++ Z.of_nat k :: map Z.of_nat (seq (S k) (Z.to_nat m - S k)))%list.
Proof.
  intro H. unfold range.
  replace (Z.to_nat m) with (k + S (Z.to_nat m - S k)) at 1 by lia.
  rewrite seq_app, map_app. reflexivity.
Qed.

Section RetryOutcomes.
Variables J P : bytes.
Variable w : world.

(** An exception outside the [Exception] hierarchy leaves the loop at
    once, at any attempt. *)
Lemma interrupted_attempt_raises prompt (m a : Z) st e :
  image_endpoint w prompt (image_calls st) = Raise e ->
  is_Exception e = false ->
  attempt_body J P w prompt m a st = (Raise e, after_attempts st 1 []).
Proof.
  unfold attempt_body, try_except, bind, call_image_endpoint.
  intros He Hb. rewrite He, Hb. unfold after_attempts.
  now rewrite app_nil_r.
Qed.

Lemma run_after_failures prompt (m : Z) (k : nat) st :
  (Z.of_nat k < m)%Z ->
  (forall j, j < k ->
     attempt_fails J P (image_endpoint w prompt (image_calls st + j))) ->
  _generate_with_retry J P w prompt m st
  = retry_loop J P w prompt m
      (Z.of_nat k :: map Z.of_nat (seq (S k) (Z.to_nat m - S k)))
      (after_attempts st k (backoff k)).
Proof.
  intros Hk Hfail. unfold _generate_with_retry.
  rewrite (range_split m k Hk).
  now rewrite (failed_attempts_go_on J P w prompt m k 0 st) by (auto; lia).
Qed.

Lemma next_call_index st k l :
  image_calls (after_attempts st k l) = image_calls st + k.
Proof. simpl. lia. Qed.

End RetryOutcomes.

(** X5. Whatever the two literals are: when the first [k] attempts fail
    (the endpoint raises an [Exception] or its answer holds no accepted
    image), [k] is less than [max_retries], and the next answer holds an
    image, [_generate_with_retry] returns that image after [k + 1] calls of
    the endpoint and [k] sleeps, of 5, 10, ..., 5k seconds; nothing else
    changes. *)
Theorem retry_returns_first_image
  (J P : bytes) (w : world) (prompt : string) (max_retries : Z) (k : nat)
  (st : state) (resp : option response) (d : bytes) :
  (Z.of_nat k < max_retries)%Z ->
  (forall j, j < k ->
     attempt_fails J P (image_endpoint w prompt (image_calls st + j))) ->
  image_endpoint w prompt (image_calls st + k) = Ok resp ->
  _extract_image_from_response J P resp = Some d ->
  exists st',
    _generate_with_retry J P w prompt max_retries st = (Ok (Some d), st')
    /\ image_calls st' = image_calls st + S k
    /\ sleeps st' = (sleeps st ++ backoff k)%list
    /\ text_calls st' = text_calls st
    /\ clock_reads st' = clock_reads st.
Proof.
  intros Hk Hfail Hresp Hd.
  rewrite (run_after_failures J P w prompt max_retries k st Hk Hfail).
  cbn [retry_loop]. unfold bind at 1.
  rewrite (good_attempt_returns J P w prompt max_retries (Z.of_nat k)
             (after_attempts st k (backoff k)) resp d).
  - rewrite after_attempts_more, app_nil_r. eexists. split; [reflexivity |].
    simpl. repeat split; lia.
  - now rewrite next_call_index.
  - exact Hd.
Qed.

Lemma retry_returns_first_image_witness :
  exists st',
    _generate_with_retry JPEG_MAGIC PNG_MAGIC
      (world_of (Ok None) (fails_then 4 jpeg_payload)) "prompt" 6 initial_state
    = (Ok (Some jpeg_payload), st')
    /\ image_calls st' = 5
    /\ sleeps st' = [5; 10; 15; 20]%Z.
Proof.
  destruct (retry_returns_first_image JPEG_MAGIC PNG_MAGIC
              (world_of (Ok None) (fails_then 4 jpeg_payload)) "prompt" 6 4
              initial_state (response_with jpeg_payload) jpeg_payload)
    as (st' & Hrun & Hcalls & Hsleeps & _).
  - lia.
  - intros j Hj.
    do 4 (destruct j as [| j]; [vm_compute; reflexivity |]). lia.
  - reflexivity.
  - vm_compute. reflexivity.
  - exists st'. repeat split; assumption.
Defined.

(** After [k] failed attempts and a last answer without image the loop
    has called [k + 1] times and slept [k + 1] times. *)
Lemma exhausted_without_image
  (J P : bytes) (w : world) (prompt : string) (k : nat) (st : state)
  (resp : option response) :
  (forall j, j < k ->
     attempt_fails J P (image_endpoint w prompt (image_calls st + j))) ->
  image_endpoint w prompt (image_calls st + k) = Ok resp ->
  bytes_truthy (_extract_image_from_response J P resp) = false ->
  _generate_with_retry J P w prompt (Z.of_nat (S k)) st
  = (Ok None, after_attempts st (S k) (backoff (S k))).
Proof.
  intros Hfail Hresp Hnone.
  rewrite (run_after_failures J P w prompt (Z.of_nat (S k)) k st)
    by (auto; lia).
  rewrite Nat2Z.id, Nat.sub_diag. cbn [seq map retry_loop]. unfold bind at 1.
  rewrite (empty_attempt_goes_on J P w prompt (Z.of_nat (S k)) (Z.of_nat k)
             (after_attempts st k (backoff k)) resp).
  - rewrite after_attempts_more, <- backoff_next.
    now rewrite Nat.add_1_r.
  - now rewrite next_call_index.
  - exact Hnone.
Qed.

(** X6. When all [k + 1] attempts of a run with [max_retries = k + 1] fail
    and the last answer holds no accepted image, [_generate_with_retry]
    returns [None] after [k + 1] calls and [k + 1] sleeps: it also sleeps
    5(k+1) seconds after the last attempt, before it gives up. *)
Theorem retry_sleeps_after_last_empty_answer
  (J P : bytes) (w : world) (prompt : string) (k : nat) (st : state)
  (resp : option response) :
  (forall j, j < k ->
     attempt_fails J P (image_endpoint w prompt (image_calls st + j))) ->
  image_endpoint w prompt (image_calls st + k) = Ok resp ->
  bytes_truthy (_extract_image_from_response J P resp) = false ->
  exists st',
    _generate_with_retry J P w prompt (Z.of_nat (S k)) st = (Ok None, st')
    /\ image_calls st' = image_calls st + S k
    /\ sleeps st' = (sleeps st ++ backoff (S k))%list.
Proof.
  intros Hfail Hresp Hnone.
  rewrite (exhausted_without_image J P w prompt k st resp Hfail Hresp Hnone).
  eexists. split; [reflexivity |]. simpl. split; [lia | reflexivity].
Qed.

Lemma retry_sleeps_after_last_empty_answer_witness :
  exists st',
    OpenImagen._generate_with_retry silent_world "prompt" 3 initial_state
    = (Ok None, st')
    /\ image_calls st' = 3
    /\ sleeps st' = [5; 10; 15]%Z.
Proof.
  apply (retry_sleeps_after_last_empty_answer LINE_292_JPEG LINE_292_PNG
           silent_world "prompt" 2 initial_state None).
  - intros j Hj. reflexivity.
  - reflexivity.
  - reflexivity.
Defined.

(** After [k] failed attempts, an exception that is not an [Exception], or
    that comes at the last attempt, leaves the loop with no further
    sleep. *)
Lemma raised_after_failures
  (J P : bytes) (w : world) (prompt : string) (max_retries : Z) (k : nat)
  (st : state) (e : exn) :
  (Z.of_nat k < max_retries)%Z ->
  (forall j, j < k ->
     attempt_fails J P (image_endpoint w prompt (image_calls st + j))) ->
  image_endpoint w prompt (image_calls st + k) = Raise e ->
  is_Exception e = false \/ Z.of_nat (S k) = max_retries ->
  _generate_with_retry J P w prompt max_retries st
  = (Raise e, after_attempts st (S k) (backoff k)).
Proof.
  intros Hk Hfail Hraise Hcase.
  rewrite (run_after_failures J P w prompt max_retries k st Hk Hfail).
  cbn [retry_loop]. unfold bind at 1.
  assert (Hbody :
    attempt_body J P w prompt max_retries (Z.of_nat k)
      (after_attempts st k (backoff k))
    = (Raise e, after_attempts (after_attempts st k (backoff k)) 1 [])).
  { destruct Hcase as [Hb | Hlast].
    - apply interrupted_attempt_raises; [| exact Hb].
      now rewrite next_call_index.
    - apply last_attempt_raises; [| lia].
      now rewrite next_call_index. }
  now rewrite Hbody, after_attempts_more, app_nil_r, Nat.add_1_r.
Qed.

(** X7. When the first [k] attempts fail and the endpoint then raises, the
    exception is raised by [_generate_with_retry] in two cases: it is not an
    [Exception] (a [KeyboardInterrupt], say), whatever attempts are left, or
    the attempt is the last one.  In both the endpoint was called [k + 1]
    times and the loop slept [k] times, 5, ..., 5k: there is no sleep
    before the exception is passed on. *)
Theorem retry_raises_without_sleeping
  (J P : bytes) (w : world) (prompt : string) (max_retries : Z) (k : nat)
  (st : state) (e : exn) :
  (Z.of_nat k < max_retries)%Z ->
  (forall j, j < k ->
     attempt_fails J P (image_endpoint w prompt (image_calls st + j))) ->
  image_endpoint w prompt (image_calls st + k) = Raise e ->
  is_Exception e = false \/ Z.of_nat (S k) = max_retries ->
  exists st',
    _generate_with_retry J P w prompt max_retries st = (Raise e, st')
    /\ image_calls st' = image_calls st + S k
    /\ sleeps st' = (sleeps st ++ backoff k)%list.
Proof.
  intros Hk Hfail Hraise Hcase.
  rewrite (raised_after_failures J P w prompt max_retries k st e
             Hk Hfail Hraise Hcase).
  eexists. split; [reflexivity |]. simpl. split; [lia | reflexivity].
Qed.

Lemma retry_raises_without_sleeping_witness :
  exists st',
    OpenImagen._generate_with_retry
      (world_of (Ok None) (fails_then_raises 1 an_interrupt)) "prompt" 3
      initial_state
    = (Raise an_interrupt, st')
    /\ image_calls st' = 2
    /\ sleeps st' = [5]%Z.
Proof.
  apply (retry_raises_without_sleeping LINE_292_JPEG LINE_292_PNG
           (world_of (Ok None) (fails_then_raises 1 an_interrupt)) "prompt"
           3 1 initial_state an_interrupt).
  - lia.
  - intros j Hj. destruct j as [| j]; [reflexivity | lia].
  - reflexivity.
  - left. reflexivity.
Defined.

(** X8. Whatever the literals, the answers and the outcome, a run of
    [_generate_with_retry] calls the image endpoint at most [max_retries]
    times, only ever appends to the record of sleeps, and touches neither
    the text endpoint nor the clock; with [max_retries] zero or negative it
    returns [None] and does nothing at all. *)
Theorem retry_effects_are_bounded
  (J P : bytes) (w : world) (prompt : string) (max_retries : Z)
  (st st' : state) (r : result (option bytes)) :
  _generate_with_retry J P w prompt max_retries st = (r, st') ->
  image_calls st <= image_calls st'
  /\ image_calls st' <= image_calls st + Z.to_nat max_retries
  /\ (exists slept, sleeps st' = (sleeps st ++ slept)%list)
  /\ text_calls st' = text_calls st
  /\ clock_reads st' = clock_reads st
  /\ client_inits st' = client_inits st
  /\ ((max_retries <= 0)%Z -> r = Ok None /\ st' = st).
Proof.
  unfold _generate_with_retry. intro H.
  assert (Hzero : (max_retries <= 0)%Z -> r = Ok None /\ st' = st).
  { intro Hm. unfold range in H.
    replace (Z.to_nat max_retries) with 0 in H by lia.
    cbn in H. unfold ret in H. injection H as <- <-. now split. }
  apply retry_loop_effects in H as (k & slept & Hk & ->).
  rewrite range_length in Hk. simpl.
  repeat split; try lia; try (now apply Hzero).
  now exists slept.
Qed.

Lemma retry_effects_are_bounded_witness :
  image_calls
    (snd (OpenImagen._generate_with_retry silent_world "prompt" 3 initial_state))
  <= 3
  /\ OpenImagen._generate_with_retry silent_world "prompt" 0 initial_state
     = (Ok None, initial_state).
Proof.
  split.
  - destruct (OpenImagen._generate_with_retry silent_world "prompt" 3
                initial_state) as [r st'] eqn:E.
    apply (retry_effects_are_bounded LINE_292_JPEG LINE_292_PNG silent_world
             "prompt" 3 initial_state st' r) in E.
    simpl. simpl in E. lia.
  - destruct (OpenImagen._generate_with_retry silent_world "prompt" 0
                initial_state) as [r st'] eqn:E.
    destruct (retry_effects_are_bounded LINE_292_JPEG LINE_292_PNG silent_world
                "prompt" 0 initial_state st' r E)
      as (_ & _ & _ & _ & _ & _ & Hz).
    destruct Hz as [-> ->]; [lia | reflexivity].
Defined.

(** ** The extraction: what is returned, and when the walk stops *)

Section ExtractionWalk.
Variables J P : bytes.

Lemma part_image_holds (p : part) (d : bytes) :
  part_image J P p = Some d ->
  payload_accepted J P d = true
  /\ exists holder,
       inline_data p = Some holder /\ data holder = Some (PyBytes d).
Proof.
  unfold part_image.
  destruct (inline_data p) as [[[[b |] |]] |]; simpl; try discriminate.
  destruct (payload_accepted J P b) eqn:E; [| discriminate].
  intro H. injection H as <-. split; [exact E |].
  eexists. split; reflexivity.
Qed.

Lemma scan_parts_holds (ps : list part) (d : bytes) :
  scan_parts J P ps = Some d ->
  exists p, In p ps /\ part_image J P p = Some d.
Proof.
  induction ps as [| p ps IH]; simpl; [discriminate |].
  destruct (part_image J P p) as [d0 |] eqn:E.
  - intro H. injection H as <-. exists p. split; [now left | exact E].
  - intro H. destruct (IH H) as (q & Hq & Hd).
    exists q. split; [now right | exact Hd].
Qed.

Lemma scan_candidates_holds (cs : list candidate) (d : bytes) :
  scan_candidates J P cs = Found d ->
  exists c ct ps,
    In c cs /\ content c = Some ct /\ parts ct = Some (Items ps)
    /\ scan_parts J P ps = Some d.
Proof.
  induction cs as [| c cs IH]; simpl; [discriminate |].
  destruct (scan_candidate J P c) as [d0 | |] eqn:E.
  - intro H. injection H as <-. unfold scan_candidate in E.
    destruct (content c) as [ct |] eqn:Ec; [| discriminate].
    destruct (parts ct) as [[| ps] |] eqn:Ep; try discriminate.
    destruct (scan_parts J P ps) as [d1 |] eqn:Es; [| discriminate].
    injection E as ->. exists c, ct, ps. repeat split; auto.
  - intro H. destruct (IH H) as (c0 & ct & ps & Hin & Hrest).
    exists c0, ct, ps. split; [now right | exact Hrest].
  - discriminate.
Qed.

Lemma scan_parts_first (ps1 : list part) (p : part) (ps2 : list part) d :
  (forall q, In q ps1 -> part_image J P q = None) ->
  part_image J P p = Some d ->
  scan_parts J P (ps1 ++ p :: ps2) = Some d.
Proof.
  induction ps1 as [| q ps1 IH]; simpl; intros Hnone Hp.
  - now rewrite Hp.
  - rewrite (Hnone q) by now left. apply IH; [| exact Hp].
    intros q' Hq'. apply Hnone. now right.
Qed.

Lemma scan_candidates_first (pre : list candidate) (c : candidate)
      (post : list candidate) :
  (forall c0, In c0 pre -> scan_candidate J P c0 = NothingFound) ->
  scan_candidates J P (pre ++ c :: post)
  = match scan_candidate J P c with
    | NothingFound => scan_candidates J P post
    | r => r
    end.
Proof.
  induction pre as [| c0 pre IH]; simpl; intro Hnone; [reflexivity |].
  rewrite (Hnone c0) by now left. apply IH.
  intros c1 Hc1. apply Hnone. now right.
Qed.
End ExtractionWalk.

(** X1. As the module is written, the extraction finds an image in no
    response at all, and so [_generate_with_retry] never returns bytes,
    whatever the endpoint answers and whatever [max_retries] is. *)
Theorem no_answer_counts_as_an_image
  (w : world) (prompt : string) (max_retries : Z) (st : state)
  (resp : option response) :
  OpenImagen._extract_image_from_response resp = None
  /\ forall d, fst (OpenImagen._generate_with_retry w prompt max_retries st)
               <> Ok (Some d).
Proof.
  split.
  - unfold OpenImagen._extract_image_from_response.
    destruct (_extract_image_from_response LINE_292_JPEG LINE_292_PNG resp)
      as [d |] eqn:E; [| reflexivity].
    apply extract_accepted in E. rewrite line_292_accepts_nothing in E.
    discriminate.
  - intros d H.
    unfold OpenImagen._generate_with_retry, _generate_with_retry in H.
    destruct (retry_loop LINE_292_JPEG LINE_292_PNG w prompt max_retries
                (range max_retries) st) as [r st'] eqn:E.
    simpl in H. subst r. apply retry_loop_accepted in E.
    rewrite line_292_accepts_nothing in E. discriminate.
Qed.

(** X2. Whatever the two literals are, bytes that the extraction returns
    are the inline data of one of the parts of one of the candidates of the
    response, are longer than 100 bytes, and start with one of the two
    literals: the extraction returns nothing that the response does not
    hold, and nothing that the check of lines 290-292 has not passed. *)
Theorem extraction_returns_a_checked_payload
  (J P : bytes) (r : response) (d : bytes) :
  _extract_image_from_response J P (Some r) = Some d ->
  100 < List.length d
  /\ (firstn 3 d = J \/ firstn 8 d = P)
  /\ exists cs c ct ps p holder,
       candidates r = Some (Items cs) /\ In c cs
       /\ content c = Some ct /\ parts ct = Some (Items ps) /\ In p ps
       /\ inline_data p = Some holder /\ data holder = Some (PyBytes d).
Proof.
  intro H.
  pose proof (extract_accepted J P (Some r) d H) as Hacc.
  apply payload_accepted_spec in Hacc as [Hlen Hsig].
  split; [exact Hlen |]. split; [exact Hsig |].
  unfold _extract_image_from_response in H.
  destruct (candidates r) as [[| cs] |] eqn:Ec; try discriminate.
  destruct (scan_candidates J P cs) as [d0 | |] eqn:Es; try discriminate.
  injection H as ->.
  apply scan_candidates_holds in Es as (c & ct & ps & Hc & Hct & Hps & Hscan).
  apply scan_parts_holds in Hscan as (p & Hp & Himg).
  apply part_image_holds in Himg as (_ & holder & Hh & Hd).
  exists cs, c, ct, ps, p, holder. repeat split; assumption.
Qed.

Lemma extraction_returns_a_checked_payload_witness :
  100 < List.length png_payload
  /\ (firstn 3 png_payload = JPEG_MAGIC \/ firstn 8 png_payload = PNG_MAGIC).
Proof.
  destruct (extraction_returns_a_checked_payload JPEG_MAGIC PNG_MAGIC
              {| candidates :=
                   Some (Items [ candidate_with [x00];
                                 candidate_with png_payload ]) |}
              png_payload)
    as (Hlen & Hsig & _).
  - vm_compute. reflexivity.
  - split; assumption.
Defined.

(** X3. Whatever the two literals are: when the candidates walked so far
    held no image and the next candidate's [parts] cannot be iterated (it
    holds [None], say), the extraction returns [None], whatever the later
    candidates hold; the error of the loop is swallowed at line 297 and the
    search is not resumed. *)
Theorem extraction_stops_at_unwalkable_parts
  (J P : bytes) (pre : list candidate) (c : candidate) (ct : content_t)
  (post : list candidate) :
  (forall c0, In c0 pre -> scan_candidate J P c0 = NothingFound) ->
  content c = Some ct ->
  parts ct = Some NotIterable ->
  _extract_image_from_response J P (response_of (pre ++ c :: post)%list) = None.
Proof.
  intros Hpre Hc Hparts. unfold response_of, _extract_image_from_response.
  cbn [candidates].
  rewrite (scan_candidates_first J P pre c post Hpre).
  unfold scan_candidate. now rewrite Hc, Hparts.
Qed.

Lemma extraction_stops_at_unwalkable_parts_witness :
  _extract_image_from_response JPEG_MAGIC PNG_MAGIC
    (response_of [ candidate_with [x00]; candidate_without_parts;
                   candidate_with jpeg_payload ])
  = None
  /\ _extract_image_from_response JPEG_MAGIC PNG_MAGIC
       (response_of [ candidate_with [x00]; candidate_with jpeg_payload ])
     = Some jpeg_payload.
Proof.
  split.
  - apply (extraction_stops_at_unwalkable_parts JPEG_MAGIC PNG_MAGIC
             [ candidate_with [x00] ] candidate_without_parts
             {| parts := Some NotIterable |} [ candidate_with jpeg_payload ]).
    + intros c0 [<- | []]. reflexivity.
    + reflexivity.
    + reflexivity.
  - vm_compute. reflexivity.
Defined.

(** X4. Whatever the two literals are, the first accepted payload wins:
    when the candidates before [c] held no image, the parts of [c] before
    [p] hold no accepted payload and [p] holds the accepted payload [d],
    the extraction returns [d], whatever comes after [p] and after [c]. *)
Theorem extraction_returns_first_accepted
  (J P : bytes) (pre : list candidate) (c : candidate) (ct : content_t)
  (post : list candidate) (ps1 : list part) (p : part) (ps2 : list part)
  (holder : inline_data_t) (d : bytes) :
  (forall c0, In c0 pre -> scan_candidate J P c0 = NothingFound) ->
  content c = Some ct ->
  parts ct = Some (Items (ps1 ++ p :: ps2)%list) ->
  (forall q, In q ps1 -> part_image J P q = None) ->
  inline_data p = Some holder ->
  data holder = Some (PyBytes d) ->
  100 < List.length d ->
  firstn 3 d = J \/ firstn 8 d = P ->
  _extract_image_from_response J P (response_of (pre ++ c :: post)%list)
  = Some d.
Proof.
  intros Hpre Hc Hparts Hps1 Hh Hd Hlen Hsig.
  assert (Hacc : payload_accepted J P d = true)
    by (apply payload_accepted_spec; auto).
  assert (Hp : part_image J P p = Some d)
    by (unfold part_image; now rewrite Hh, Hd, Hacc).
  unfold response_of, _extract_image_from_response. cbn [candidates].
  rewrite (scan_candidates_first J P pre c post Hpre).
  unfold scan_candidate. rewrite Hc, Hparts.
  now rewrite (scan_parts_first J P ps1 p ps2 d Hps1 Hp).
Qed.

Lemma extraction_returns_first_accepted_witness :
  _extract_image_from_response JPEG_MAGIC PNG_MAGIC
    (response_of
       [ candidate_with [x00];
         candidate_of [ part_without_data; part_with png_payload;
                        part_with jpeg_payload ] ])
  = Some png_payload.
Proof.
  apply (extraction_returns_first_accepted JPEG_MAGIC PNG_MAGIC
           [ candidate_with [x00] ]
           (candidate_of [ part_without_data; part_with png_payload;
                           part_with jpeg_payload ])
           {| parts := Some (Items [ part_without_data; part_with png_payload;
                                     part_with jpeg_payload ]) |}
           []
           [ part_without_data ] (part_with png_payload)
           [ part_with jpeg_payload ]
           {| data := Some (PyBytes png_payload) |} png_payload).
  - intros c0 [<- | []]. reflexivity.
  - reflexivity.
  - reflexivity.
  - intros q [<- | []]. reflexivity.
  - reflexivity.
  - reflexivity.
  - vm_compute. lia.
  - right. reflexivity.
Defined.

(** ** The scene resolver *)

Lemma lstrip_length (p : ascii -> bool) (s : string) :
  String.length (PyStr.lstrip p s) <= String.length s.
Proof.
  induction s as [| c s IH]; simpl; [lia |].
  destruct (p c); simpl; lia.
Qed.

Lemma rstrip_length (p : ascii -> bool) (s : string) :
  String.length (PyStr.rstrip p s) <= String.length s.
Proof.
  induction s as [| c s IH]; simpl; [lia |].
  destruct (PyStr.rstrip p s) as [| c' r]; simpl in *.
  - destruct (p c); simpl; lia.
  - lia.
Qed.

Lemma strip_length (p : ascii -> bool) (s : string) :
  String.length (PyStr.strip p s) <= String.length s.
Proof.
  unfold PyStr.strip.
  pose proof (rstrip_length p (PyStr.lstrip p s)).
  pose proof (lstrip_length p s). lia.
Qed.

Lemma before_last_length (d : ascii) (s : string) :
  String.length (PyStr.before_last d s) <= String.length s.
Proof.
  induction s as [| c s IH]; simpl; [lia |].
  destruct (PyStr.has_char d s); simpl; [lia |].
  destruct (Ascii.eqb d c); simpl; lia.
Qed.

Lemma lstrip_all (p : ascii -> bool) (s : string) :
  all_chars p s = true -> PyStr.lstrip p s = EmptyString.
Proof.
  induction s as [| c s IH]; simpl; [reflexivity |].
  intro H. apply andb_true_iff in H as [Hc Hs]. rewrite Hc. now apply IH.
Qed.

Lemma strip_all (p : ascii -> bool) (s : string) :
  all_chars p s = true -> PyStr.strip p s = EmptyString.
Proof.
  intro H. unfold PyStr.strip. now rewrite (lstrip_all p s H).
Qed.

(** The description made of a usable answer is never longer than the
    answer, and never longer than 201 characters. *)
Lemma normalise_scene_length (t : string) :
  String.length (normalise_scene t) <= String.length t
  /\ String.length (normalise_scene t) <= 201.
Proof.
  unfold normalise_scene.
  set (s := PyStr.strip (PyStr.is_char "'"%char)
              (PyStr.strip (PyStr.is_char PyStr.DOUBLE_QUOTE)
                 (PyStr.strip PyStr.is_space t))).
  assert (Hs : String.length s <= String.length t).
  { unfold s.
    pose proof (strip_length (PyStr.is_char "'"%char)
                  (PyStr.strip (PyStr.is_char PyStr.DOUBLE_QUOTE)
                     (PyStr.strip PyStr.is_space t))).
    pose proof (strip_length (PyStr.is_char PyStr.DOUBLE_QUOTE)
                  (PyStr.strip PyStr.is_space t)).
    pose proof (strip_length PyStr.is_space t). lia. }
  destruct (Nat.ltb_spec 200 (String.length s)) as [Hlong | Hshort].
  - rewrite length_append.
    pose proof (before_last_length "."%char (PyStr.take 200 s)) as Hb.
    rewrite length_take in Hb. simpl String.length. lia.
  - lia.
Qed.

Lemma scene_resolver_cases (w : world) (kw ind : string) (st : state) :
  _generate_intelligent_scene w kw ind st
  = (match text_endpoint w kw ind with
     | Raise e =>
         if is_Exception e
         then Ok (_create_intelligent_fallback kw ind)
         else Raise e
     | Ok (Some {| text := Some (String c t) |}) =>
         Ok (normalise_scene (String c t))
     | Ok _ => Ok (_create_intelligent_fallback kw ind)
     end,
     snd (call_text_endpoint w kw ind st)).
Proof.
  unfold _generate_intelligent_scene. unfold bind at 1.
  unfold try_except. unfold bind at 1. unfold call_text_endpoint.
  cbn [snd].
  destruct (text_endpoint w kw ind) as [[[[[| c t] |]] |] | e]; cbn [text];
    try reflexivity.
  destruct (is_Exception e); reflexivity.
Qed.

(** X9. The scene resolver calls the text endpoint exactly once and touches
    nothing else.  It never raises an [Exception]: what it raises, if
    anything, is what the text endpoint raised outside the [Exception]
    hierarchy.  When the endpoint raises an [Exception], answers with
    nothing, or answers with no text or an empty text, the description is
    the fallback sentence for the keyword. *)
Theorem scene_resolver_always_answers
  (w : world) (kw ind : string) (st st' : state) (r : result string) :
  _generate_intelligent_scene w kw ind st = (r, st') ->
  (text_calls st' = S (text_calls st)
   /\ image_calls st' = image_calls st
   /\ sleeps st' = sleeps st
   /\ clock_reads st' = clock_reads st)
  /\ (forall e, r = Raise e ->
                is_Exception e = false /\ text_endpoint w kw ind = Raise e)
  /\ ((exists e, text_endpoint w kw ind = Raise e /\ is_Exception e = true)
      \/ text_endpoint w kw ind = Ok None
      \/ text_endpoint w kw ind = Ok (Some {| text := None |})
      \/ text_endpoint w kw ind = Ok (Some {| text := Some EmptyString |}) ->
      r = Ok (_create_intelligent_fallback kw ind)).
Proof.
  rewrite scene_resolver_cases. intro H. injection H as <- <-.
  split; [repeat split |]. split.
  - intros e He.
    destruct (text_endpoint w kw ind) as [[[[[| c t] |]] |] | e0];
      try discriminate.
    destruct (is_Exception e0) eqn:Hb; [discriminate |].
    injection He as <-. now split.
  - intros [(e & -> & ->) | [-> | [-> | ->]]]; reflexivity.
Qed.

Lemma scene_resolver_always_answers_witness :
  fst (_generate_intelligent_scene silent_world "Beekeeping" "Farming"
         initial_state)
  = Ok (_create_intelligent_fallback "Beekeeping" "Farming")
  /\ text_calls
       (snd (_generate_intelligent_scene silent_world "Beekeeping" "Farming"
               initial_state)) = 1.
Proof.
  destruct (_generate_intelligent_scene silent_world "Beekeeping" "Farming"
              initial_state) as [r st'] eqn:E.
  destruct (scene_resolver_always_answers silent_world "Beekeeping" "Farming"
              initial_state st' r E) as ((Hcalls & _) & _ & Hfallback).
  split.
  - apply Hfallback. left. eexists. split; reflexivity.
  - exact Hcalls.
Defined.

Lemma normalise_scene_longest (t : string) :
  String.length (normalise_scene t) = 201 ->
  exists body,
    normalise_scene t = body ++ "." /\ String.length body = 200.
Proof.
  unfold normalise_scene.
  set (s := PyStr.strip (PyStr.is_char "'"%char)
              (PyStr.strip (PyStr.is_char PyStr.DOUBLE_QUOTE)
                 (PyStr.strip PyStr.is_space t))).
  destruct (Nat.ltb_spec 200 (String.length s)) as [Hlong | Hshort].
  - rewrite length_append. simpl String.length. intro H.
    eexists. split; [reflexivity | lia].
  - lia.
Qed.

(** X10. When the text endpoint answers with a non-empty text, the
    description is made of that text alone (stripped, and cut when longer
    than 200 characters): it is never longer than the text and never longer
    than 201 characters, and a description of 201 characters is 200
    characters of the text followed by a full stop - the case of a long
    text with no full stop in its first 200 characters. *)
Theorem scene_description_is_bounded
  (w : world) (kw ind : string) (st : state) (t : string) :
  text_endpoint w kw ind = Ok (Some {| text := Some t |}) ->
  t <> EmptyString ->
  exists s,
    fst (_generate_intelligent_scene w kw ind st) = Ok s
    /\ s = normalise_scene t
    /\ String.length s <= String.length t
    /\ String.length s <= 201
    /\ (String.length s = 201 ->
        exists body, s = body ++ "." /\ String.length body = 200).
Proof.
  intros Ht Hne. rewrite scene_resolver_cases, Ht. cbn [fst].
  destruct t as [| c t]; [congruence |].
  exists (normalise_scene (String c t)).
  pose proof (normalise_scene_length (String c t)) as [H1 H2].
  repeat split; try assumption.
  apply normalise_scene_longest.
Qed.

(** An answer of 201 letters and no full stop gives 201 characters. *)
Lemma scene_description_is_bounded_witness :
  exists s,
    fst (_generate_intelligent_scene
           (answering_world (string_of_list_ascii (repeat "a"%char 201)))
           "kw" "ind" initial_state) = Ok s
    /\ String.length s = 201.
Proof.
  destruct (scene_description_is_bounded
              (answering_world (string_of_list_ascii (repeat "a"%char 201)))
              "kw" "ind" initial_state
              (string_of_list_ascii (repeat "a"%char 201)))
    as (s & Hrun & Hs & _).
  - reflexivity.
  - discriminate.
  - exists s. split; [exact Hrun |]. rewrite Hs. vm_compute. reflexivity.
Defined.

(** X11. A non-empty answer made of white space only is taken as usable:
    the description is then the empty string, and the fallback sentence is
    not used. *)
Theorem blank_answer_gives_empty_scene
  (w : world) (kw ind : string) (st : state) (t : string) :
  text_endpoint w kw ind = Ok (Some {| text := Some t |}) ->
  t <> EmptyString ->
  all_chars PyStr.is_space t = true ->
  fst (_generate_intelligent_scene w kw ind st) = Ok EmptyString.
Proof.
  intros Ht Hne Hall. rewrite scene_resolver_cases, Ht. cbn [fst].
  destruct t as [| c t]; [congruence |].
  unfold normalise_scene.
  rewrite (strip_all PyStr.is_space (String c t) Hall). reflexivity.
Qed.

Lemma blank_answer_gives_empty_scene_witness :
  fst (_generate_intelligent_scene (answering_world " ") "kw" "ind"
         initial_state)
  = Ok EmptyString
  /\ _create_intelligent_fallback "kw" "ind" <> EmptyString.
Proof.
  split.
  - apply (blank_answer_gives_empty_scene (answering_world " ") "kw" "ind"
             initial_state " ").
    + reflexivity.
    + discriminate.
    + reflexivity.
  - discriminate.
Defined.

(** ** The fallback classifier: letter case, industry, substrings *)

Lemma lower_append (a b : string) :
  PyStr.lower (a ++ b) = PyStr.lower a ++ PyStr.lower b.
Proof.
  induction a as [| c a IH]; simpl; [reflexivity | now rewrite IH].
Qed.

Lemma prefix_of_append (t b : string) : String.prefix t (t ++ b) = true.
Proof.
  induction t as [| c t IH]; simpl; [now destruct b |].
  destruct (ascii_dec c c) as [_ | N]; [exact IH | congruence].
Qed.

Lemma contains_prefix (t s : string) :
  String.prefix t s = true -> PyStr.contains t s = true.
Proof.
  intro H. destruct s; cbn [PyStr.contains]; now rewrite H.
Qed.

Lemma contains_inside (t a b : string) :
  PyStr.contains t (a ++ t ++ b) = true.
Proof.
  induction a as [| c a IH].
  - change (EmptyString ++ t ++ b) with (t ++ b).
    apply contains_prefix, prefix_of_append.
  - change (String c a ++ t ++ b) with (String c (a ++ t ++ b)).
    cbn [PyStr.contains]. rewrite IH. apply orb_true_r.
Qed.

Lemma any_term_inside (terms : list string) (t a b : string) :
  In t terms -> PyStr.any_term_in terms (a ++ t ++ b) = true.
Proof.
  intro H. unfold PyStr.any_term_in. apply existsb_exists.
  exists t. split; [exact H | apply contains_inside].
Qed.

(** X12. The fallback sentence depends on the keyword only through its
    lower-cased form, and not on the industry at all: two keywords that
    differ in letter case only get the same one of the six sentences, each
    with its own spelling of the keyword, whatever the two industries
    are. *)
Theorem fallback_ignores_case_and_industry (kw1 kw2 ind1 ind2 : string) :
  PyStr.lower kw1 = PyStr.lower kw2 ->
  exists t,
    In t ALL_TEMPLATES
    /\ _create_intelligent_fallback kw1 ind1 = fst t ++ kw1 ++ snd t
    /\ _create_intelligent_fallback kw2 ind2 = fst t ++ kw2 ++ snd t.
Proof.
  intro H. unfold _create_intelligent_fallback. cbv zeta. rewrite H.
  unfold ALL_TEMPLATES.
  destruct (PyStr.any_term_in TECH_TERMS (PyStr.lower kw2));
    [exists TECH_TEMPLATE; simpl; auto |].
  destruct (PyStr.any_term_in MANAGEMENT_TERMS (PyStr.lower kw2));
    [exists MANAGEMENT_TEMPLATE; simpl; auto |].
  destruct (PyStr.any_term_in SAFETY_TERMS (PyStr.lower kw2));
    [exists SAFETY_TEMPLATE; simpl; auto |].
  destruct (PyStr.any_term_in CUSTOMER_TERMS (PyStr.lower kw2));
    [exists CUSTOMER_TEMPLATE; simpl; auto 10 |].
  destruct (PyStr.any_term_in FINANCE_TERMS (PyStr.lower kw2));
    [exists FINANCE_TEMPLATE; simpl; auto 10 |].
  exists GENERIC_TEMPLATE. simpl. auto 10.
Qed.

Lemma fallback_ignores_case_and_industry_witness :
  exists t,
    In t ALL_TEMPLATES
    /\ _create_intelligent_fallback "BUDGET Review" "Retail"
       = fst t ++ "BUDGET Review" ++ snd t
    /\ _create_intelligent_fallback "budget review" "Mining"
       = fst t ++ "budget review" ++ snd t.
Proof.
  apply (fallback_ignores_case_and_industry "BUDGET Review" "budget review"
           "Retail" "Mining").
  reflexivity.
Defined.

(** X13. The terms are looked for as substrings of the lower-cased
    keyword, not as words: a keyword in which a term of the first family
    occurs anywhere, in any letter case, even inside a longer word, gets
    the sentence of the first family, whatever else it holds. *)
Theorem fallback_matches_substrings (before term after ind : string) :
  In (PyStr.lower term) TECH_TERMS ->
  _create_intelligent_fallback (before ++ term ++ after) ind
  = fst TECH_TEMPLATE ++ (before ++ term ++ after) ++ snd TECH_TEMPLATE.
Proof.
  intro H. unfold _create_intelligent_fallback. cbv zeta.
  rewrite !lower_append.
  now rewrite (any_term_inside TECH_TERMS (PyStr.lower term)
                 (PyStr.lower before) (PyStr.lower after) H).
Qed.

(** "Chain" holds "ai": the keyword is given the sentence of the first
    family, although "finance" is a term of the fifth. *)
Lemma fallback_matches_substrings_witness :
  _create_intelligent_fallback "Supply Chain finance" "Logistics"
  = "Professional team collaborating on Supply Chain finance in modern office environment. Multiple screens with data visualizations, authentic working session with natural lighting and lived-in details.".
Proof.
  apply (fallback_matches_substrings "Supply Ch" "ai" "n finance" "Logistics").
  simpl. auto.
Defined.

(** ** The prompt and the alt text: what enters them *)

(** X14. The prompt is built from the keyword, the scene description and
    the custom instructions alone: two requests with the same keyword whose
    instructions are equal, or are both absent or empty, get the same
    prompt for the same scene, whatever their headlines, company names,
    industries and languages are. *)
Theorem prompt_depends_on_keyword_scene_instructions
  (r1 r2 : ImageRequest) (scene : string) :
  keyword r1 = keyword r2 ->
  custom_prompt_instructions (company_data r1)
  = custom_prompt_instructions (company_data r2)
  \/ (PyStr.opt_truthy (custom_prompt_instructions (company_data r1)) = false
      /\ PyStr.opt_truthy (custom_prompt_instructions (company_data r2)) = false) ->
  _build_professional_prompt r1 scene = _build_professional_prompt r2 scene.
Proof.
  intros Hk Hi.
  assert (Hfixed : fixed_block r1 scene = fixed_block r2 scene)
    by (unfold fixed_block, framing_line; now rewrite Hk).
  destruct Hi as [Hsame | [H1 H2]].
  - destruct (custom_prompt_instructions (company_data r1)) as [[| c i] |] eqn:E1.
    + rewrite (prompt_without_instructions r1 scene) by now rewrite E1.
      rewrite (prompt_without_instructions r2 scene) by now rewrite <- Hsame.
      exact Hfixed.
    + rewrite (prompt_with_instructions r1 scene (String c i) E1) by discriminate.
      rewrite (prompt_with_instructions r2 scene (String c i)) by
        (auto; discriminate).
      now rewrite Hfixed.
    + rewrite (prompt_without_instructions r1 scene) by now rewrite E1.
      rewrite (prompt_without_instructions r2 scene) by now rewrite <- Hsame.
      exact Hfixed.
  - rewrite (prompt_without_instructions r1 scene H1).
    rewrite (prompt_without_instructions r2 scene H2).
    exact Hfixed.
Qed.

Lemma prompt_depends_on_keyword_scene_instructions_witness :
  _build_professional_prompt
    {| headline := "Edge Computing Revolution"; keyword := "edge computing";
       company_data := {| name := "EdgeTech Solutions";
                          industry := "Computing Infrastructure";
                          language := "en";
                          custom_prompt_instructions := None |} |}
    "A desk."
  = _build_professional_prompt
      {| headline := "Another headline"; keyword := "edge computing";
         company_data := {| name := "UrbanGrow";
                            industry := "Agricultural Technology";
                            language := "de";
                            custom_prompt_instructions := Some EmptyString |} |}
      "A desk.".
Proof.
  apply prompt_depends_on_keyword_scene_instructions.
  - reflexivity.
  - right. split; reflexivity.
Defined.

Lemma take_past_prefix (a b : string) (n : nat) :
  PyStr.take (String.length a + n) (a ++ b) = a ++ PyStr.take n b.
Proof.
  unfold PyStr.take. induction a as [| c a IH]; simpl; [reflexivity |].
  now rewrite IH.
Qed.

(** X15. The alt text of every request starts with "Professional editorial
    image: " and has at most 125 characters; when the headline is longer
    than 95 characters, what follows the prefix is the first 92 characters
    of the headline and three dots. *)
Theorem alt_text_keeps_prefix_and_bound (request : ImageRequest) :
  String.length (_generate_alt_text request) <= 125
  /\ (exists rest, _generate_alt_text request = ALT_PREFIX ++ rest)
  /\ (95 < String.length (headline request) ->
      _generate_alt_text request
      = ALT_PREFIX ++ PyStr.take 92 (headline request) ++ "...").
Proof.
  assert (Hlong : 95 < String.length (headline request) ->
                  _generate_alt_text request
                  = ALT_PREFIX ++ PyStr.take 92 (headline request) ++ "...").
  { intro H. rewrite (alt_text_long request H).
    change 122 with (String.length ALT_PREFIX + 92).
    now rewrite take_past_prefix, append_assoc. }
  destruct (Nat.le_gt_cases (String.length (headline request)) 95) as [Hs | Hl].
  - rewrite (alt_text_short request Hs). split; [| split].
    + rewrite length_append, alt_prefix_length. lia.
    + now exists (headline request).
    + lia.
  - rewrite (Hlong Hl). split; [| split].
    + rewrite !length_append, length_take, alt_prefix_length.
      simpl String.length. lia.
    + eexists. reflexivity.
    + reflexivity.
Qed.

Lemma alt_text_keeps_prefix_and_bound_witness :
  _generate_alt_text
    (request_for (string_of_list_ascii (repeat "a"%char 96)) "kw" None)
  = ALT_PREFIX ++ string_of_list_ascii (repeat "a"%char 92) ++ "...".
Proof.
  rewrite (proj2 (proj2 (alt_text_keeps_prefix_and_bound
                           (request_for
                              (string_of_list_ascii (repeat "a"%char 96))
                              "kw" None)))).
  - reflexivity.
  - vm_compute. lia.
Defined.

(** ** The facade: effects, elapsed time, and what a response reports *)

Section FacadeFacts.
Variables J P : bytes.
Variable w : world.

Lemma pipeline_unfolded request t0 st :
  generation_pipeline J P w request t0 st
  = match _generate_intelligent_scene w (keyword request)
            (industry (company_data request)) st with
    | (Raise e, st1) => (Raise e, st1)
    | (Ok scene, st1) =>
        match _generate_with_retry J P w
                (_build_professional_prompt request scene) 3 st1 with
        | (Raise e, st2) => (Raise e, st2)
        | (Ok o, st2) =>
            (Ok (if bytes_truthy o
                 then {| success := true;
                         image_data := o;
                         image_url :=
                           DATA_URI_PREFIX
                             ++ Base64.b64encode (match o with
                                                  | Some d => d
                                                  | None => []
                                                  end);
                         alt_text := _generate_alt_text request;
                         generation_time_seconds :=
                           time_time w (clock_reads st2) - t0;
                         error := None;
                         prompt_used :=
                           Some (_build_professional_prompt request scene);
                         scene_description := Some scene |}
                 else failure_response NO_IMAGE_ERROR
                        (time_time w (clock_reads st2) - t0)),
             snd (read_clock w st2))
        end
    end.
Proof.
  unfold generation_pipeline. unfold bind at 1.
  destruct (_generate_intelligent_scene w (keyword request)
              (industry (company_data request)) st) as [[scene | e] st1];
    [| reflexivity].
  unfold bind at 1.
  destruct (_generate_with_retry J P w
              (_build_professional_prompt request scene) 3 st1)
    as [[o | e] st2]; [| reflexivity].
  destruct (bytes_truthy o); reflexivity.
Qed.

Lemma pipeline_effects request t0 st r st' :
  generation_pipeline J P w request t0 st = (r, st') ->
  text_calls st' = S (text_calls st)
  /\ image_calls st <= image_calls st'
  /\ image_calls st' <= image_calls st + 3
  /\ client_inits st' = client_inits st
  /\ match r with
     | Ok resp =>
         clock_reads st' = S (clock_reads st)
         /\ generation_time_seconds resp
            = (time_time w (clock_reads st) - t0)%Z
     | Raise _ => clock_reads st' = clock_reads st
     end.
Proof.
  rewrite pipeline_unfolded.
  destruct (_generate_intelligent_scene w (keyword request)
              (industry (company_data request)) st) as [sr st1] eqn:Es.
  rewrite scene_resolver_cases in Es. injection Es as _ <-.
  destruct sr as [scene | e].
  - unfold _generate_with_retry at 1.
    destruct (retry_loop J P w (_build_professional_prompt request scene) 3
                (range 3) _) as [[o | e] st2] eqn:E;
      apply retry_loop_effects in E as (k & slept & Hlen & ->);
      rewrite range_length in Hlen; change (Z.to_nat 3) with 3 in Hlen;
      intro H; injection H as <- <-; simpl;
      repeat split; try lia.
    destruct (bytes_truthy o); simpl; f_equal; lia.
  - intro H. injection H as <- <-. simpl. repeat split; lia.
Qed.

End FacadeFacts.

(** X16. Whatever the literals and the answers, a call of [generate_image]
    calls the text endpoint exactly once and the image endpoint at most
    three times, and builds no client.  When it returns a response, it has
    read the clock exactly twice, and the response's time is the second
    reading less the first, for a success as for a failure. *)
Theorem facade_effects_and_elapsed_time
  (J P : bytes) (w : world) (request : ImageRequest) (st st' : state)
  (r : result ImageResponse) :
  generate_image J P w request st = (r, st') ->
  text_calls st' = S (text_calls st)
  /\ image_calls st <= image_calls st'
  /\ image_calls st' <= image_calls st + 3
  /\ client_inits st' = client_inits st
  /\ (forall resp,
        r = Ok resp ->
        clock_reads st' = clock_reads st + 2
        /\ generation_time_seconds resp
           = (time_time w (S (clock_reads st)) - time_time w (clock_reads st))%Z).
Proof.
  unfold generate_image. unfold bind at 1. cbn [read_clock].
  unfold try_except.
  match goal with
  | |- context [generation_pipeline J P w request ?t ?s] =>
      destruct (generation_pipeline J P w request t s) as [r0 st2] eqn:Hp
  end.
  apply pipeline_effects in Hp as (Ht & Hi1 & Hi2 & Hk & Hr). simpl in *.
  destruct r0 as [resp0 | e].
  - intro H. injection H as <- <-. destruct Hr as [Hc Hs].
    split; [lia |]. split; [lia |]. split; [lia |]. split; [lia |].
    intros resp Hresp. injection Hresp as <-. split; [lia | exact Hs].
  - destruct (is_Exception e).
    + unfold bind, read_clock, ret. intro H. injection H as <- <-. simpl.
      split; [lia |]. split; [lia |]. split; [lia |]. split; [lia |].
      intros resp Hresp. injection Hresp as <-. simpl.
      split; [lia | now rewrite Hr].
    + intro H. injection H as <- <-.
      split; [lia |]. split; [lia |]. split; [lia |]. split; [lia |].
      discriminate.
Qed.

Lemma facade_effects_and_elapsed_time_witness :
  exists resp st',
    OpenImagen.generate_image silent_world edge_request initial_state
    = (Ok resp, st')
    /\ text_calls st' = 1
    /\ clock_reads st' = 2
    /\ generation_time_seconds resp = 10%Z.
Proof.
  destruct (OpenImagen.generate_image silent_world edge_request initial_state)
    as [r st'] eqn:E.
  assert (Hr : exists resp, r = Ok resp).
  { assert (E' := E). vm_compute in E'. injection E' as <- _.
    eexists. reflexivity. }
  destruct Hr as [resp ->].
  destruct (facade_effects_and_elapsed_time LINE_292_JPEG LINE_292_PNG
              silent_world edge_request initial_state st' (Ok resp) E)
    as (Ht & _ & _ & _ & Hresp).
  destruct (Hresp resp eq_refl) as [Hc Hs].
  exists resp, st'. repeat split; assumption.
Defined.

(** X17. Whatever the two literals are, a success response reports what
    was used to make it: its scene description is the one the scene
    resolver returned, its prompt is the prompt built from the request and
    that description, its alt text is the one of the request, and its image
    data is longer than 100 bytes. *)
Theorem success_reports_what_was_used
  (J P : bytes) (w : world) (request : ImageRequest) (st st' : state)
  (r : ImageResponse) :
  generate_image J P w request st = (Ok r, st') ->
  success r = true ->
  exists scene d,
    fst (_generate_intelligent_scene w (keyword request)
           (industry (company_data request)) (snd (read_clock w st)))
    = Ok scene
    /\ scene_description r = Some scene
    /\ prompt_used r = Some (_build_professional_prompt request scene)
    /\ alt_text r = _generate_alt_text request
    /\ image_data r = Some d
    /\ 100 < List.length d
    /\ error r = None.
Proof.
  unfold generate_image. unfold bind at 1. cbn [read_clock snd].
  unfold try_except. rewrite pipeline_unfolded.
  destruct (_generate_intelligent_scene w (keyword request)
              (industry (company_data request)) _) as [[scene | e] st1].
  - destruct (_generate_with_retry J P w
                (_build_professional_prompt request scene) 3 st1)
      as [[o | e] st2] eqn:Hr.
    + intro H. injection H as <- _.
      destruct (bytes_truthy o) eqn:Ht; [| discriminate].
      intros _. destruct o as [d |]; [| discriminate].
      unfold _generate_with_retry in Hr. apply retry_loop_accepted in Hr.
      apply payload_accepted_spec in Hr as [Hlen _].
      exists scene, d. repeat split; assumption.
    + destruct (is_Exception e); [| discriminate].
      unfold bind, read_clock, ret. intro H. injection H as <- _.
      discriminate.
  - destruct (is_Exception e); [| discriminate].
    unfold bind, read_clock, ret. intro H. injection H as <- _. discriminate.
Qed.

Lemma success_reports_what_was_used_witness :
  exists r st',
    generate_image JPEG_MAGIC PNG_MAGIC png_world edge_request initial_state
    = (Ok r, st')
    /\ scene_description r
       = Some (_create_intelligent_fallback
                 "edge computing IoT distributed systems"
                 "Computing Infrastructure")
    /\ alt_text r = "Professional editorial image: Edge Computing Revolution".
Proof.
  destruct (generate_image JPEG_MAGIC PNG_MAGIC png_world edge_request
              initial_state) as [res st'] eqn:E.
  assert (Hres : exists r, res = Ok r /\ success r = true).
  { assert (E' := E). vm_compute in E'. injection E' as <- _.
    eexists. split; reflexivity. }
  destruct Hres as (r & -> & Hs).
  destruct (success_reports_what_was_used JPEG_MAGIC PNG_MAGIC png_world
              edge_request initial_state st' r E Hs)
    as (scene & d & Hscene & Hsd & _ & Halt & _).
  exists r, st'. split; [reflexivity |]. split.
  - rewrite Hsd. vm_compute in Hscene. injection Hscene as <-.
    vm_compute. reflexivity.
  - exact Halt.
Defined.



(** X19. As the module is written, every response that [generate_image]
    returns is a failure: [success] is false, the error is set, and there
    is neither image data nor data URI, prompt or scene description,
    whatever the two endpoints answer. *)
Theorem as_written_every_response_is_a_failure
  (w : world) (request : ImageRequest) (st st' : state) (r : ImageResponse) :
  OpenImagen.generate_image w request st = (Ok r, st') ->
  success r = false
  /\ (exists message, error r = Some message)
  /\ image_data r = None
  /\ image_url r = EmptyString
  /\ prompt_used r = None
  /\ scene_description r = None.
Proof.
  unfold OpenImagen.generate_image. intro H.
  apply generate_image_returns in H as [(d & Hacc & _) | (m & s & ->)].
  - rewrite line_292_accepts_nothing in Hacc. discriminate.
  - simpl. repeat split. now exists m.
Qed.

(** The image endpoint answers each time with 101 bytes that start with
    the PNG signature: the response is a failure all the same. *)
Lemma as_written_every_response_is_a_failure_witness :
  exists r st',
    OpenImagen.generate_image png_world edge_request initial_state = (Ok r, st')
    /\ success r = false
    /\ image_data r = None.
Proof.
  destruct (OpenImagen.generate_image png_world edge_request initial_state)
    as [res st'] eqn:E.
  assert (Hres : exists r, res = Ok r).
  { assert (E' := E). vm_compute in E'. injection E' as <- _.
    eexists. reflexivity. }
  destruct Hres as (r & ->).
  destruct (as_written_every_response_is_a_failure png_world edge_request
              initial_state st' r E) as (Hs & _ & Hd & _).
  exists r, st'. repeat split; assumption.
Defined.

(** ** The constructor, the convenience function and the example script *)

Lemma resolved_key_comes_from_environment (w : world) (k : string) :
  OpenImagen._get_api_key w = Some k ->
  k <> EmptyString ->
  first_non_empty [ getenv w "GOOGLE_API_KEY"; getenv w "GEMINI_API_KEY";
                    getenv w "GOOGLE_GEMINI_API_KEY" ] = Some k.
Proof.
  intros Hk Hne.
  pose proof (get_api_key_is_first_non_empty w) as [Hsome Hnone].
  cbv zeta in Hsome, Hnone.
  destruct (first_non_empty _) as [k' |] eqn:E.
  - destruct (Hsome k' eq_refl) as [_ Hk']. congruence.
  - specialize (Hnone eq_refl). rewrite Hk in Hnone.
    destruct k; [congruence | discriminate].
Qed.

Lemma init_unfolded (w : world) (api_key : option string) (st : state) :
  OpenImagen.__init__ w api_key st
  = match OpenImagen.py_or api_key (OpenImagen._get_api_key w) with
    | Some (String c k) =>
        (match genai_client w (String c k) with
         | Ok _ => Ok (String c k)
         | Raise e =>
             match exn_class_of e with
             | ImportError => Raise OpenImagen.PACKAGE_REQUIRED
             | _ => Raise e
             end
         end,
         snd (make_client w (String c k) st))
    | _ => (Raise OpenImagen.KEY_REQUIRED, st)
    end.
Proof.
  unfold OpenImagen.__init__.
  destruct (OpenImagen.py_or api_key (OpenImagen._get_api_key w))
    as [[| c k] |]; try reflexivity.
  unfold make_client. cbn [snd].
  destruct (genai_client w (String c k)) as [[] | e]; [reflexivity |].
  destruct (exn_class_of e); reflexivity.
Qed.

Lemma py_or_cases (a b : option string) :
  (PyStr.opt_truthy a = true /\ OpenImagen.py_or a b = a)
  \/ (PyStr.opt_truthy a = false /\ OpenImagen.py_or a b = b).
Proof.
  unfold OpenImagen.py_or. destruct (PyStr.opt_truthy a); auto.
Qed.

(** X20. A constructor that returns has built exactly one client, with a
    key that is never empty: the [api_key] it was given when that is a
    non-empty string, whatever the environment holds, and otherwise the
    first non-empty value of the three environment variables. *)
Theorem constructed_key_is_never_empty
  (w : world) (api_key : option string) (st st' : state) (k : string) :
  OpenImagen.__init__ w api_key st = (Ok k, st') ->
  k <> EmptyString
  /\ genai_client w k = Ok tt
  /\ client_inits st' = S (client_inits st)
  /\ (PyStr.opt_truthy api_key = true -> api_key = Some k)
  /\ (PyStr.opt_truthy api_key = false ->
      first_non_empty [ getenv w "GOOGLE_API_KEY"; getenv w "GEMINI_API_KEY";
                        getenv w "GOOGLE_GEMINI_API_KEY" ] = Some k).
Proof.
  rewrite init_unfolded.
  destruct (OpenImagen.py_or api_key (OpenImagen._get_api_key w))
    as [[| c k0] |] eqn:Hor; try discriminate.
  destruct (genai_client w (String c k0)) as [[] | e] eqn:Hc.
  - intro H. injection H as <- <-.
    split; [discriminate |]. split; [exact Hc |]. split; [reflexivity |].
    destruct (py_or_cases api_key (OpenImagen._get_api_key w))
      as [[Ht Heq] | [Hf Heq]]; rewrite Heq in Hor.
    + split; [intros _; exact Hor | congruence].
    + split; [congruence |]. intros _.
      now apply resolved_key_comes_from_environment.
  - destruct (exn_class_of e); discriminate.
Qed.

Lemma constructed_key_is_never_empty_witness :
  exists st',
    OpenImagen.__init__ (env_world (Some "from-env") None None)
      (Some "passed") initial_state = (Ok "passed", st')
    /\ client_inits st' = 1.
Proof.
  destruct (OpenImagen.__init__ (env_world (Some "from-env") None None)
              (Some "passed") initial_state) as [r st'] eqn:E.
  assert (Hr : r = Ok "passed")
    by (assert (E' := E); vm_compute in E'; now injection E' as <- _).
  subst r.
  destruct (constructed_key_is_never_empty
              (env_world (Some "from-env") None None) (Some "passed")
              initial_state st' "passed" E) as (_ & _ & Hc & _).
  exists st'. split; [reflexivity | exact Hc].
Defined.

(** X21. A constructor that raises does so for one of two reasons.  No key
    was found: it raises the [ValueError] of line 48 and has built no
    client.  Or building the client raised: an [ImportError] is replaced by
    the [ImportError] of line 62, with its fixed text, and any other
    exception is passed on as it is. *)
Theorem constructor_raises_for_key_or_client
  (w : world) (api_key : option string) (st st' : state) (e : exn) :
  OpenImagen.__init__ w api_key st = (Raise e, st') ->
  (e = OpenImagen.KEY_REQUIRED /\ st' = st
   /\ PyStr.opt_truthy api_key = false
   /\ PyStr.opt_truthy (OpenImagen._get_api_key w) = false)
  \/ (exists k e0,
        k <> EmptyString
        /\ genai_client w k = Raise e0
        /\ client_inits st' = S (client_inits st)
        /\ ((exn_class_of e0 = ImportError /\ e = OpenImagen.PACKAGE_REQUIRED)
            \/ (exn_class_of e0 <> ImportError /\ e = e0))).
Proof.
  rewrite init_unfolded.
  destruct (py_or_cases api_key (OpenImagen._get_api_key w))
    as [[Ht Heq] | [Hf Heq]]; rewrite Heq.
  - destruct api_key as [[| c k] |]; try discriminate.
    destruct (genai_client w (String c k)) as [[] | e0] eqn:Hc;
      [discriminate |].
    intro H. injection H as He <-. right. exists (String c k), e0.
    split; [discriminate |]. split; [exact Hc |]. split; [reflexivity |].
    destruct (exn_class_of e0); [right | right | left | right | right | right];
      (split; [discriminate || reflexivity | congruence]).
  - destruct (OpenImagen._get_api_key w) as [[| c k] |] eqn:Hg.
    + intro H. injection H as <- <-. left. repeat split; assumption.
    + destruct (genai_client w (String c k)) as [[] | e0] eqn:Hc;
        [discriminate |].
      intro H. injection H as He <-. right. exists (String c k), e0.
      split; [discriminate |]. split; [exact Hc |]. split; [reflexivity |].
      destruct (exn_class_of e0); [right | right | left | right | right | right];
        (split; [discriminate || reflexivity | congruence]).
    + intro H. injection H as <- <-. left. repeat split; assumption.
Qed.

Lemma constructor_raises_for_key_or_client_witness :
  OpenImagen.__init__ (env_world None (Some EmptyString) None) None
    initial_state
  = (Raise OpenImagen.KEY_REQUIRED, initial_state).
Proof.
  destruct (OpenImagen.__init__ (env_world None (Some EmptyString) None) None
              initial_state) as [r st'] eqn:E.
  assert (Hr : exists e, r = Raise e)
    by (assert (E' := E); vm_compute in E'; injection E' as <- _;
        eexists; reflexivity).
  destruct Hr as [e ->].
  destruct (constructor_raises_for_key_or_client
              (env_world None (Some EmptyString) None) None initial_state
              st' e E) as [(-> & -> & _) | (k & e0 & _ & Hc & _)].
  - reflexivity.
  - discriminate.
Defined.

Lemma main_check_is_key_lookup (w : world) :
  main_finds_api_key w = PyStr.opt_truthy (OpenImagen._get_api_key w).
Proof.
  unfold main_finds_api_key, OpenImagen._get_api_key, OpenImagen.py_or.
  cbn [existsb].
  destruct (PyStr.opt_truthy (getenv w "GOOGLE_API_KEY")) eqn:E1;
    [now rewrite E1 |].
  destruct (PyStr.opt_truthy (getenv w "GEMINI_API_KEY")) eqn:E2;
    [now rewrite E2 |].
  cbn. now rewrite orb_false_r.
Qed.

(** X22. [generate_professional_image] is no error boundary for the
    constructor: an exception of the constructor (the [ValueError] for a
    missing key, the [ImportError] for a missing package) is raised to the
    caller, with no endpoint called and no clock read; when the constructor
    returns, the result is that of [generate_image] for the request built
    from the arguments, with the language "en"; and an [Exception] that
    [generate_professional_image] raises is always one of the constructor. *)
Theorem convenience_function_raises_constructor_errors
  (w : world) (h kw company ind : string) (api_key instructions : option string)
  (st : state) :
  (forall e st1,
      OpenImagen.__init__ w api_key st = (Raise e, st1) ->
      generate_professional_image w h kw company ind api_key instructions st
      = (Raise e, st1))
  /\ (forall k st1,
        OpenImagen.__init__ w api_key st = (Ok k, st1) ->
        generate_professional_image w h kw company ind api_key instructions st
        = OpenImagen.generate_image w
            {| headline := h; keyword := kw;
               company_data :=
                 {| name := company; industry := ind; language := "en";
                    custom_prompt_instructions := instructions |} |} st1)
  /\ (forall e st',
        generate_professional_image w h kw company ind api_key instructions st
        = (Raise e, st') ->
        is_Exception e = true ->
        OpenImagen.__init__ w api_key st = (Raise e, st')
        /\ text_calls st' = text_calls st
        /\ image_calls st' = image_calls st
        /\ clock_reads st' = clock_reads st)
  /\ (PyStr.opt_truthy api_key = false ->
      main_finds_api_key w = false ->
      generate_professional_image w h kw company ind api_key instructions st
      = (Raise OpenImagen.KEY_REQUIRED, st)).
Proof.
  unfold generate_professional_image, bind.
  split; [| split; [| split]].
  - intros e st1 ->. reflexivity.
  - intros k st1 ->. reflexivity.
  - intros e st'.
    destruct (OpenImagen.__init__ w api_key st) as [[k | e0] st1] eqn:Hi.
    + intros Hrun He. unfold OpenImagen.generate_image in Hrun.
      apply boundary_lets_through in Hrun. congruence.
    + intros H _. injection H as <- <-. split; [reflexivity |].
      rewrite init_unfolded in Hi.
      destruct (OpenImagen.py_or api_key (OpenImagen._get_api_key w))
        as [[| c k] |]; injection Hi as _ <-; repeat split.
  - intros Hf Hmain. rewrite main_check_is_key_lookup in Hmain.
    rewrite init_unfolded. unfold OpenImagen.py_or. rewrite Hf.
    destruct (OpenImagen._get_api_key w) as [[| c k] |];
      [reflexivity | discriminate | reflexivity].
Qed.

Lemma convenience_function_raises_constructor_errors_witness :
  generate_professional_image (env_world None None None)
    "Quantum Computing Revolution" "quantum computing algorithms"
    "QuantumTech" "Advanced Computing" None None initial_state
  = (Raise OpenImagen.KEY_REQUIRED, initial_state).
Proof.
  apply (proj2 (proj2 (proj2
           (convenience_function_raises_constructor_errors
              (env_world None None None)
              "Quantum Computing Revolution" "quantum computing algorithms"
              "QuantumTech" "Advanced Computing" None None initial_state))));
    reflexivity.
Defined.

(** X23. The key check at the head of [main] in the example script agrees
    with the constructor: the check finds no key exactly in the
    environments in which a generator constructed without [api_key] raises
    the [ValueError] of line 48. *)
Theorem main_check_agrees_with_constructor (w : world) (st : state) :
  main_finds_api_key w = false
  <-> OpenImagen.__init__ w None st = (Raise OpenImagen.KEY_REQUIRED, st).
Proof.
  rewrite main_check_is_key_lookup, init_unfolded.
  change (OpenImagen.py_or None (OpenImagen._get_api_key w))
    with (OpenImagen._get_api_key w).
  destruct (OpenImagen._get_api_key w) as [[| c k] |]; cbn [PyStr.opt_truthy PyStr.truthy].
  - split; reflexivity.
  - split; [discriminate |]. intro H. apply (f_equal snd) in H.
    apply (f_equal client_inits) in H. simpl in H. lia.
  - split; reflexivity.
Qed.

Lemma main_check_agrees_with_constructor_witness :
  main_finds_api_key (env_world (Some EmptyString) None None) = false
  /\ main_finds_api_key (env_world (Some EmptyString) None (Some "key-3")) = true.
Proof.
  split.
  - apply (proj2 (main_check_agrees_with_constructor
                    (env_world (Some EmptyString) None None) initial_state)).
    reflexivity.
  - destruct (main_finds_api_key
                (env_world (Some EmptyString) None (Some "key-3"))) eqn:E;
      [reflexivity |].
    apply (proj1 (main_check_agrees_with_constructor
                    (env_world (Some EmptyString) None (Some "key-3"))
                    initial_state)) in E.
    discriminate.
Defined.

(** ** The facade as the error boundary, in full *)

Section BoundaryFacts.
Variables J P : bytes.
Variable w : world.



End BoundaryFacts.


